(** * Hollyhock GUI wrappers: dispatch-table shadowing

    A shallow embedding of the SDK's GUI header: the table-layout macros,
    the foreign structures they describe, the foreign call macros and
    [GUIButton::GetEventType], together with the construction and
    trampoline logic of [GUIDialog]. *)

From Stdlib Require Import ZArith List String Bool Lia.
Import ListNotations.
Local Open Scope Z_scope.

(* ================================================================= *)
(** ** Fixed-width integers *)

(** Conversion to [uint16_t] / [uint32_t]: reduction modulo 2^w. *)
Definition uint16_t (x : Z) : Z := x mod 2 ^ 16.
Definition uint32_t (x : Z) : Z := x mod 2 ^ 32.

(** Conversion to [int32_t] (and to [int], which is 32 bits wide on the
    target): two's complement. *)
Definition int32_t (x : Z) : Z :=
  let u := x mod 2 ^ 32 in
  if u <? 2 ^ 31 then u else u - 2 ^ 32.

(** Arithmetic on [int], the type every operand of [GetEventType] is
    promoted to. *)
Definition int_add (a b : Z) : Z := int32_t (a + b).
Definition int_shl (a n : Z) : Z := int32_t (Z.shiftl a n).
Definition int_or (a b : Z) : Z := int32_t (Z.lor a b).

(** [GUIButton::GetEventType]:
    [return ((eventType + 8) << 4) | (1 << 3);] with result type
    [uint16_t]. *)
Definition GetEventType (eventType : Z) : Z :=
  uint16_t (int_or (int_shl (int_add eventType 8) 4) (int_shl 1 3)).

(** The same expression with every intermediate value kept in an unsigned
    16-bit register. *)
Definition GetEventType_wrap16 (eventType : Z) : Z :=
  uint16_t (Z.lor (uint16_t (Z.shiftl (uint16_t (eventType + 8)) 4))
                  (uint16_t (Z.shiftl 1 3))).

(* ================================================================= *)
(** ** Types and structure layout *)

(** The part of the target's data model the header does not fix: the size
    and alignment of a pointer. *)
Record DataModel : Type := mkDataModel {
  ptr_size : Z;
  ptr_align : Z
}.

(** The calculator's SH-4 core: 32-bit pointers. *)
Definition sh4 : DataModel := mkDataModel 4 4.

(** A 64-bit host, for comparison. *)
Definition lp64 : DataModel := mkDataModel 8 8.

#[warnings="-register-all"]
Inductive ctype : Type :=
| TUInt8
| TUInt16
| TUInt32
| TInt32
| TPtr                                   (* pointer to object *)
| TFnPtr                                 (* pointer to function *)
| TArr (elem : ctype) (n : Z)
| TStruct (fields : list (string * ctype)).

Definition field : Type := (string * ctype)%type.

(** Round [x] up to a multiple of [a]. *)
Definition align_up (x a : Z) : Z := (x + a - 1) / a * a.

(** Offsets of a sequence of members given as (size, alignment) pairs,
    starting from offset [off]. *)
Fixpoint offsets_from (off : Z) (sa : list (Z * Z)) : list Z :=
  match sa with
  | [] => []
  | (s, a) :: r =>
      let o := align_up off a in o :: offsets_from (o + s) r
  end.

(** Offset just past the last member. *)
Fixpoint end_from (off : Z) (sa : list (Z * Z)) : Z :=
  match sa with
  | [] => off
  | (s, a) :: r => end_from (align_up off a + s) r
  end.

Definition max_align (sa : list (Z * Z)) : Z :=
  fold_right (fun p m => Z.max (snd p) m) 1 sa.

Fixpoint alignof (dm : DataModel) (t : ctype) : Z :=
  match t with
  | TUInt8 => 1
  | TUInt16 => 2
  | TUInt32 => 4
  | TInt32 => 4
  | TPtr => ptr_align dm
  | TFnPtr => ptr_align dm
  | TArr e _ => alignof dm e
  | TStruct fs => fold_right (fun f m => Z.max (alignof dm (snd f)) m) 1 fs
  end.

Fixpoint sizeof (dm : DataModel) (t : ctype) : Z :=
  match t with
  | TUInt8 => 1
  | TUInt16 => 2
  | TUInt32 => 4
  | TInt32 => 4
  | TPtr => ptr_size dm
  | TFnPtr => ptr_size dm
  | TArr e n => n * sizeof dm e
  | TStruct fs =>
      let sa := map (fun f => (sizeof dm (snd f), alignof dm (snd f))) fs in
      align_up (end_from 0 sa) (max_align sa)
  end.

Definition size_align (dm : DataModel) (f : field) : Z * Z :=
  (sizeof dm (snd f), alignof dm (snd f)).

(** Sizes of a sequence of members, summed. *)
Definition sum_sizes (sa : list (Z * Z)) : Z :=
  fold_right (fun p s => fst p + s) 0 sa.

(** The members of a structure paired with their byte offsets. *)
Definition layout (dm : DataModel) (fs : list field) : list (string * Z) :=
  combine (map fst fs) (offsets_from 0 (map (size_align dm) fs)).

Fixpoint assoc {A : Type} (k : string) (l : list (string * A)) : option A :=
  match l with
  | [] => None
  | (k', v) :: r => if String.eqb k k' then Some v else assoc k r
  end.

(** [offsetof(struct, name)]; [None] when the structure has no such
    member. *)
Definition offsetof (dm : DataModel) (fs : list field) (name : string)
  : option Z :=
  assoc name (layout dm fs).

(* ================================================================= *)
(** ** The table macros *)

(** [#define VTABLE_FAKE_ENTRY(n, x) uint32_t fakeentry##x[n * 3]] *)
Definition VTABLE_FAKE_ENTRY (n : Z) (x : string) : list field :=
  [(String.append "fakeentry" x, TArr TUInt32 (n * 3))].

(** [#define VTABLE_ENTRY(return_type, name, ...)
       int32_t name##_Offset; uint32_t name##_Unused;
       return_type ( *name )(__VA_ARGS__)]
    The return and argument types only refine the type of the function
    pointer; they have no effect on the layout. *)
Definition VTABLE_ENTRY (name : string) : list field :=
  [(String.append name "_Offset", TInt32);
   (String.append name "_Unused", TUInt32);
   (name, TFnPtr)].

(* ================================================================= *)
(** ** The foreign structures *)

Definition GUIDialog_Wrapped_VTable : list field :=
  [("me"%string, TPtr); ("fakeentrypadding"%string, TArr TUInt32 2)]
  ++ VTABLE_FAKE_ENTRY 1 "0"
  ++ VTABLE_ENTRY "OnEvent"
  ++ VTABLE_FAKE_ENTRY 1 "1"
  ++ VTABLE_ENTRY "AddElement"
  ++ VTABLE_FAKE_ENTRY 4 "2"
  ++ VTABLE_ENTRY "Refresh"
  ++ VTABLE_FAKE_ENTRY 23 "3"
  ++ VTABLE_ENTRY "ShowDialog"
  ++ VTABLE_FAKE_ENTRY 20 "4".

Definition GUIDialog_Wrapped : list field :=
  [("unknown0"%string, TArr TUInt8 0x10);
   ("leftX"%string, TUInt16);
   ("topY"%string, TUInt16);
   ("rightX"%string, TUInt16);
   ("bottomY"%string, TUInt16);
   ("unknown1"%string, TArr TUInt8 0x34);
   ("vtable"%string, TPtr);
   ("unknown2"%string, TArr TUInt8 0x58)].

Definition GUIDialog_OnEvent_Data : list field :=
  [("type"%string, TUInt16);
   ("unknown0"%string, TUInt16);
   ("element"%string, TPtr)].

Definition GUIDropDownMenu_Wrapped_VTable : list field :=
  VTABLE_FAKE_ENTRY 5 "0"
  ++ VTABLE_ENTRY "AddMenuItem"
  ++ VTABLE_FAKE_ENTRY 28 "1"
  ++ VTABLE_ENTRY "SetScrollBarVisibility".

Definition GUIDropDownMenu_Wrapped : list field :=
  [("unknown0"%string, TArr TUInt8 0x4C);
   ("vtable"%string, TPtr)].

Definition GUITextBox_Wrapped_VTable : list field :=
  VTABLE_FAKE_ENTRY 32 "0"
  ++ VTABLE_ENTRY "SetText".

Definition GUITextBox_Wrapped : list field :=
  [("unknown0"%string, TArr TUInt8 0x4C);
   ("vtable"%string, TPtr);
   ("unknown1"%string, TArr TUInt8 0x4);
   ("text"%string, TPtr);
   ("unknown2"%string, TArr TUInt8 0x48)].

(** The two [static_assert]s of the header, evaluated for a data model:
    [static_assert(sizeof(struct GUIDialog_Wrapped) == 0xA8);]
    [static_assert(sizeof(struct GUITextBox_Wrapped) == 0xA0);] *)
Definition static_asserts (dm : DataModel) : list bool :=
  [sizeof dm (TStruct GUIDialog_Wrapped) =? 0xA8;
   sizeof dm (TStruct GUITextBox_Wrapped) =? 0xA0].

(** The translation unit compiles when every static assertion holds. *)
Definition builds (dm : DataModel) : bool :=
  forallb (fun b => b) (static_asserts dm).

(** The wrapper classes.  [Wrapped] holds [m_wrapped]; [GUIDialog] is
    polymorphic ([virtual OnEvent]), so its object starts with the pointer
    to its class's virtual table, followed by the [Wrapped] base and its own
    members.  The contents of [_vptr] are not interpreted below: which
    [OnEvent] a wrapper runs is given by [virtual_OnEvent]. *)
Definition Wrapped : list field := [("m_wrapped"%string, TPtr)].

Definition GUIDialog : list field :=
  [("_vptr"%string, TPtr)]
  ++ Wrapped
  ++ [("m_oldVTable"%string, TPtr);
      ("m_vtable"%string, TStruct GUIDialog_Wrapped_VTable)].

(** Size and alignment of the members of a table, on the target. *)
Definition sa_of (fs : list field) : list (Z * Z) := map (size_align sh4) fs.

(** A dispatch table read as a sequence of items, one per declaration line:
    the identity slot ([me] and its two padding words), a run of fake
    entries, or a named entry. *)
Inductive vt_item : Type :=
| IDENT
| FAKE (n : Z) (x : string)
| ENTRY (name : string).

Definition item_fields (i : vt_item) : list field :=
  match i with
  | IDENT => [("me"%string, TPtr); ("fakeentrypadding"%string, TArr TUInt32 2)]
  | FAKE n x => VTABLE_FAKE_ENTRY n x
  | ENTRY name => VTABLE_ENTRY name
  end.

(** Number of table slots an item stands for. *)
Definition item_slots (i : vt_item) : Z :=
  match i with
  | IDENT => 1
  | FAKE n _ => n
  | ENTRY _ => 1
  end.

Definition table_fields (items : list vt_item) : list field :=
  flat_map item_fields items.

Definition slots (items : list vt_item) : Z :=
  fold_right (fun i s => item_slots i + s) 0 items.

Definition fake_counts_ok (items : list vt_item) : bool :=
  forallb (fun i => 0 <=? item_slots i) items.

Definition GUIDialog_Wrapped_VTable_items : list vt_item :=
  [IDENT; FAKE 1 "0"; ENTRY "OnEvent"; FAKE 1 "1"; ENTRY "AddElement";
   FAKE 4 "2"; ENTRY "Refresh"; FAKE 23 "3"; ENTRY "ShowDialog"; FAKE 20 "4"].

Definition GUIDropDownMenu_Wrapped_VTable_items : list vt_item :=
  [FAKE 5 "0"; ENTRY "AddMenuItem"; FAKE 28 "1";
   ENTRY "SetScrollBarVisibility"].

Definition GUITextBox_Wrapped_VTable_items : list vt_item :=
  [FAKE 32 "0"; ENTRY "SetText"].

(** Slot number of the entry called [name]: the number of slots the items
    before it stand for. *)
Fixpoint entry_index (items : list vt_item) (name : string) : option Z :=
  match items with
  | [] => None
  | ENTRY n :: r =>
      if String.eqb name n then Some 0
      else option_map (Z.add 1) (entry_index r name)
  | it :: r => option_map (Z.add (item_slots it)) (entry_index r name)
  end.

(** The tables the header declares. *)
Definition declared_tables : list (list vt_item) :=
  [GUIDialog_Wrapped_VTable_items;
   GUIDropDownMenu_Wrapped_VTable_items;
   GUITextBox_Wrapped_VTable_items].

(** Shift every offset of a layout by [d]. *)
Definition shift (d : Z) (l : list (string * Z)) : list (string * Z) :=
  map (fun p => (fst p, d + snd p)) l.

(* ================================================================= *)
(** ** Memory *)

(** Byte-addressed memory of the 32-bit target; multi-byte values are
    stored most significant byte first, as the calculator's CPU runs. *)
Definition mem : Type := Z -> Z.

Definition load8 (m : mem) (a : Z) : Z := m a mod 256.

Definition store8 (m : mem) (a v : Z) : mem :=
  fun x => if x =? a then v mod 256 else m x.

Definition load16 (m : mem) (a : Z) : Z :=
  load8 m a * 256 + load8 m (a + 1).

Definition load32 (m : mem) (a : Z) : Z :=
  ((load8 m a * 256 + load8 m (a + 1)) * 256 + load8 m (a + 2)) * 256
  + load8 m (a + 3).

Definition store16 (m : mem) (a v : Z) : mem :=
  store8 (store8 m a (v / 256)) (a + 1) v.

Definition store32 (m : mem) (a v : Z) : mem :=
  store8 (store8 (store8 (store8 m a (v / 2 ^ 24))
                         (a + 1) (v / 2 ^ 16))
                 (a + 2) (v / 2 ^ 8))
         (a + 3) v.

(** Two memories hold the same bytes on [a, a + len). *)
Definition agree_on (m1 m2 : mem) (a len : Z) : Prop :=
  forall i, 0 <= i < len -> load8 m1 (a + i) = load8 m2 (a + i).

(** The ranges [a, a + la) and [b, b + lb) do not meet. *)
Definition disjoint (a la b lb : Z) : bool :=
  (a + la <=? b) || (b + lb <=? a).

(** Offset of a member on the target; every name used below is a member of
    its structure. *)
Definition fld (fs : list field) (name : string) : Z :=
  match offsetof sh4 fs name with
  | Some o => o
  | None => 0
  end.

(** [reinterpret_cast<uint8_t *>(p) + d]: address arithmetic in bytes. *)
Definition ptr_add (p d : Z) : Z := uint32_t (p + d).

(* ================================================================= *)
(** ** The foreign call macros *)

Section ForeignCall.

(** The machine's indirect call: running the code at an address on a list
    of arguments from a memory gives a result and a memory, or goes
    wrong. *)
Variable call : Z -> list Z -> mem -> option (Z * mem).

(** [#define VTABLE_CALL_EXT(self, vtable, name, ...)
       (vtable)->name(
         reinterpret_cast<decltype(self)>(
           reinterpret_cast<uint8_t *>(self) + (vtable)->name##_Offset),
         ## __VA_ARGS__)]
    [T] is the structure [vtable] points to; a [name] that is not an
    entry of [T] does not compile. *)
Definition VTABLE_CALL_EXT (T : list field) (self vtable : Z)
    (name : string) (args : list Z) (m : mem) : option (Z * mem) :=
  match offsetof sh4 T (String.append name "_Offset"),
        offsetof sh4 T name with
  | Some o_off, Some o_fn =>
      call (load32 m (vtable + o_fn))
           (ptr_add self (int32_t (load32 m (vtable + o_off))) :: args)
           m
  | _, _ => None
  end.

(** [#define VTABLE_CALL(self, vtable, name, ...)
       VTABLE_CALL_EXT(self, self->vtable, name, ## __VA_ARGS__)]
    [S] is the structure [self] points to and [vtable] names its member
    holding the table pointer. *)
Definition VTABLE_CALL (S T : list field) (self : Z) (vtable : string)
    (name : string) (args : list Z) (m : mem) : option (Z * mem) :=
  match offsetof sh4 S vtable with
  | Some o_vt => VTABLE_CALL_EXT T self (load32 m (self + o_vt)) name args m
  | None => None
  end.

End ForeignCall.

(* ================================================================= *)
(** ** The event descriptor *)

(** [event->type], [event->unknown0], [event->element]. *)
Definition event_type (m : mem) (event : Z) : Z :=
  load16 m (event + fld GUIDialog_OnEvent_Data "type").
Definition event_unknown0 (m : mem) (event : Z) : Z :=
  load16 m (event + fld GUIDialog_OnEvent_Data "unknown0").
Definition event_element (m : mem) (event : Z) : Z :=
  load32 m (event + fld GUIDialog_OnEvent_Data "element").

Definition read_event (m : mem) (event : Z) : Z * Z * Z :=
  (event_type m event, event_unknown0 m event, event_element m event).

(** The foreign side filling in a descriptor before it calls [OnEvent]. *)
Definition write_event (m : mem) (event : Z) (ty aux element : Z) : mem :=
  store32 (store16 (store16 m
             (event + fld GUIDialog_OnEvent_Data "type") ty)
             (event + fld GUIDialog_OnEvent_Data "unknown0") aux)
          (event + fld GUIDialog_OnEvent_Data "element") element.

(* ================================================================= *)
(** ** The wrappers *)

(** [Wrapped::GetWrapped<T>()]: [return static_cast<T *>(m_wrapped);] *)
Definition GetWrapped (m : mem) (this : Z) : Z :=
  load32 m (this + fld GUIDialog "m_wrapped").

(** Member offsets and sizes the dialog code uses, on the target. *)
Definition o_vtable : Z := Eval cbv in fld GUIDialog_Wrapped "vtable".
Definition o_me : Z := Eval cbv in fld GUIDialog_Wrapped_VTable "me".
Definition o_OnEvent_Offset : Z :=
  Eval cbv in fld GUIDialog_Wrapped_VTable "OnEvent_Offset".
Definition o_OnEvent : Z :=
  Eval cbv in fld GUIDialog_Wrapped_VTable "OnEvent".
Definition o_m_wrapped : Z := Eval cbv in fld GUIDialog "m_wrapped".
Definition o_m_oldVTable : Z := Eval cbv in fld GUIDialog "m_oldVTable".
Definition o_m_vtable : Z := Eval cbv in fld GUIDialog "m_vtable".
Definition VTable_size : Z :=
  Eval cbv in sizeof sh4 (TStruct GUIDialog_Wrapped_VTable).
Definition GUIDialog_size : Z := Eval cbv in sizeof sh4 (TStruct GUIDialog).

(** [for (i = 0; i < n; ++i) dst[i] = src[i];] entered with [n] bytes
    still to copy, the next one at index [i]. *)
Fixpoint copy_from (i : Z) (n : nat) (dst src : Z) (m : mem) : mem :=
  match n with
  | O => m
  | S n' =>
      copy_from (i + 1) n' dst src (store8 m (dst + i) (load8 m (src + i)))
  end.

Definition copy_bytes (dst src len : Z) (m : mem) : mem :=
  copy_from 0 (Z.to_nat len) dst src m.

Section Shadowing.

(** Address of the static member function [GUIDialog::OnEvent_Wrap]. *)
Variable OnEvent_Wrap_addr : Z.

(** [p->OnEvent(dialog, event)] for a wrapper at address [p]: the final
    overrider of the virtual [OnEvent] in the dynamic type of the object
    living there. *)
Variable virtual_OnEvent : Z -> Z -> Z -> mem -> option (Z * mem).

(** The code in ROM, by address. *)
Variable firmware : Z -> list Z -> mem -> option (Z * mem).

(** Modelled from the spec: the body of the constructor of [GUIDialog],
    which the header only declares, from the point where the external
    initializer has returned the foreign block [w].  It records [w] and
    the object's current table, copies that table byte for byte into the
    wrapper's own [m_vtable] (the Shadow), writes the wrapper's address
    into the Identity Slot [me], puts the Trampoline into the [OnEvent]
    slot and relinks the foreign object's table pointer to the Shadow. *)
Definition GUIDialog_ctor (this w : Z) (m : mem) : mem :=
  let m1 := store32 m (this + o_m_wrapped) w in
  let old := load32 m1 (w + o_vtable) in
  let m2 := store32 m1 (this + o_m_oldVTable) old in
  let m3 := copy_bytes (this + o_m_vtable) old VTable_size m2 in
  let m4 := store32 m3 (this + o_m_vtable + o_me) this in
  let m5 := store32 m4 (this + o_m_vtable + o_OnEvent) OnEvent_Wrap_addr in
  store32 m5 (w + o_vtable) (this + o_m_vtable).

(** Modelled from the spec: identity recovery, the first half of the
    Trampoline, which the header only declares: from the foreign
    self-pointer reach the table the foreign object points to and read
    its Identity Slot. *)
Definition recover_me (m : mem) (dialog : Z) : Z :=
  load32 m (load32 m (dialog + o_vtable) + o_me).

(** Modelled from the spec: the Trampoline [GUIDialog::OnEvent_Wrap],
    which the header only declares: recover the wrapper and invoke its
    polymorphic [OnEvent] with the arguments it was called with. *)
Definition OnEvent_Wrap (dialog event : Z) (m : mem) : option (Z * mem) :=
  virtual_OnEvent (recover_me m dialog) dialog event m.

(** An indirect call on the running system: the Trampoline's address runs
    the Trampoline, every other address is firmware. *)
Definition icall (f : Z) (args : list Z) (m : mem) : option (Z * mem) :=
  if f =? OnEvent_Wrap_addr then
    match args with
    | [dialog; event] => OnEvent_Wrap dialog event m
    | _ => None
    end
  else firmware f args m.

(** Modelled from the spec: the body of [GUIDialog::OnEvent], which the
    header only declares: the fall-through to the original (pre-shadow)
    function pointer, reached through [m_oldVTable], with the
    arguments the Trampoline received. *)
Definition GUIDialog_OnEvent (this dialog event : Z) (m : mem)
  : option (Z * mem) :=
  icall (load32 m (load32 m (this + o_m_oldVTable) + o_OnEvent))
        [dialog; event] m.

(** The foreign side delivering an event to the dialog at [self]: a call
    through the [OnEvent] slot of the table the object points to. *)
Definition deliver_event (self event : Z) (m : mem) : option (Z * mem) :=
  VTABLE_CALL icall GUIDialog_Wrapped GUIDialog_Wrapped_VTable
              self "vtable" "OnEvent" [event] m.

(** The same delivery through an explicitly given table. *)
Definition deliver_event_via (table self event : Z) (m : mem)
  : option (Z * mem) :=
  VTABLE_CALL_EXT icall GUIDialog_Wrapped_VTable
                  self table "OnEvent" [event] m.

(** Constructing several wrappers one after the other, each given as
    (wrapper address, foreign block). *)
Definition construct_all (ws : list (Z * Z)) (m : mem) : mem :=
  fold_left (fun acc p => GUIDialog_ctor (fst p) (snd p) acc) ws m.

End Shadowing.

(** One instance keeps to the address space, and the table pointer of its
    foreign object lies outside the wrapper. *)
Definition instance_ok (p : Z * Z) : bool :=
  (0 <=? fst p) && (fst p + GUIDialog_size <=? 2 ^ 32)
  && disjoint (fst p) GUIDialog_size (snd p + o_vtable) 4.

(** Two instances are independent: neither wrapper overlaps the other nor
    the other's table pointer, and the two table pointers are different
    words. *)
Definition instances_apart (p q : Z * Z) : bool :=
  disjoint (fst p) GUIDialog_size (fst q) GUIDialog_size
  && disjoint (fst p) GUIDialog_size (snd q + o_vtable) 4
  && disjoint (fst q) GUIDialog_size (snd p + o_vtable) 4
  && disjoint (snd p + o_vtable) 4 (snd q + o_vtable) 4.

Fixpoint separated (ws : list (Z * Z)) : bool :=
  match ws with
  | [] => true
  | p :: r => instance_ok p && forallb (instances_apart p) r && separated r
  end.

(** [x] lies neither in the wrapper of instance [q] nor in the table
    pointer of its foreign object. *)
Definition outside (q : Z * Z) (x : Z) : Prop :=
  (x < fst q \/ fst q + GUIDialog_size <= x)
  /\ (x < snd q + o_vtable \/ snd q + o_vtable + 4 <= x).

(** A sequence of events, each addressed to one instance and given as
    (wrapper address, foreign block, event): what the foreign side does,
    entering the Trampoline with the foreign block, ... *)
Fixpoint run_trampolines
    (virtual_OnEvent : Z -> Z -> Z -> mem -> option (Z * mem))
    (calls : list (Z * Z * Z)) (m : mem) : option (list Z * mem) :=
  match calls with
  | [] => Some ([], m)
  | (_, w, event) :: r =>
      match OnEvent_Wrap virtual_OnEvent w event m with
      | Some (x, m1) =>
          match run_trampolines virtual_OnEvent r m1 with
          | Some (xs, m2) => Some (x :: xs, m2)
          | None => None
          end
      | None => None
      end
  end.

(** ... and what running each addressed wrapper's own [OnEvent] gives. *)
Fixpoint run_overrides
    (virtual_OnEvent : Z -> Z -> Z -> mem -> option (Z * mem))
    (calls : list (Z * Z * Z)) (m : mem) : option (list Z * mem) :=
  match calls with
  | [] => Some ([], m)
  | (this, w, event) :: r =>
      match virtual_OnEvent this w event m with
      | Some (x, m1) =>
          match run_overrides virtual_OnEvent r m1 with
          | Some (xs, m2) => Some (x :: xs, m2)
          | None => None
          end
      | None => None
      end
  end.

(** The overriders write neither into a wrapper nor over the table pointer
    of a foreign object. *)
Definition keeps_instances
    (virtual_OnEvent : Z -> Z -> Z -> mem -> option (Z * mem))
    (ws : list (Z * Z)) : Prop :=
  forall this dialog event m x m1,
    virtual_OnEvent this dialog event m = Some (x, m1) ->
    forall p, In p ws ->
      agree_on m m1 (fst p) GUIDialog_size
      /\ agree_on m m1 (snd p + o_vtable) 4.

(** Every foreign object points to its wrapper's Shadow, whose Identity
    Slot points back to the wrapper. *)
Definition linked (ws : list (Z * Z)) (m : mem) : Prop :=
  forall p, In p ws ->
    load32 m (snd p + o_vtable) = fst p + o_m_vtable
    /\ load32 m (fst p + o_m_vtable + o_me) = fst p.

(* ================================================================= *)
(** ** More of the header *)

(** [const int BUTTON_OK = 1 << 5;] and the five that follow. *)
Definition BUTTON_OK : Z := int_shl 1 5.
Definition BUTTON_YES : Z := int_shl 1 6.
Definition BUTTON_NO : Z := int_shl 1 7.
Definition BUTTON_ABORT : Z := int_shl 1 8.
Definition BUTTON_RETRY : Z := int_shl 1 9.
Definition BUTTON_CANCEL : Z := int_shl 1 10.

Definition BUTTONS : list Z :=
  [BUTTON_OK; BUTTON_YES; BUTTON_NO; BUTTON_ABORT; BUTTON_RETRY;
   BUTTON_CANCEL].

(** Buttons combined with [|] into the [buttons] bitfield of
    [GUI_DisplayMessageBox_Internal]. *)
Definition buttons_or (l : list Z) : Z := fold_right int_or 0 l.

(** Reading an [eventType] back from the type a button reports:
    [(type >> 4) - 8]. *)
Definition eventType_of (type : Z) : Z := Z.shiftr type 4 - 8.

(** Pairwise different names. *)
Fixpoint distinct_names (l : list string) : bool :=
  match l with
  | [] => true
  | n :: r => negb (existsb (String.eqb n) r) && distinct_names r
  end.

(** [l] with the suffix [s] taken off, when it ends in [s]. *)
Fixpoint strip_suffix (s l : string) : option string :=
  if String.eqb l s then Some EmptyString
  else match l with
       | EmptyString => None
       | String c l' => option_map (String c) (strip_suffix s l')
       end.

(** Offsets of members laid out back to back from [off]. *)
Fixpoint back_to_back (off : Z) (sizes : list Z) : list Z :=
  match sizes with
  | [] => []
  | s :: r => off :: back_to_back (off + s) r
  end.

(** A structure without padding: every member starts where the one before
    it ends, and the structure ends with its last member. *)
Definition packed (dm : DataModel) (fs : list field) : Prop :=
  map snd (layout dm fs)
  = back_to_back 0 (map (fun f => sizeof dm (snd f)) fs)
  /\ sizeof dm (TStruct fs) = sum_sizes (map (size_align dm) fs).

(** The structures the header declares for foreign memory. *)
Definition declared_structs : list (list field) :=
  [GUIDialog_Wrapped_VTable; GUIDialog_Wrapped; GUIDialog_OnEvent_Data;
   GUIDropDownMenu_Wrapped_VTable; GUIDropDownMenu_Wrapped;
   GUITextBox_Wrapped_VTable; GUITextBox_Wrapped].

(** The foreign objects of the header that carry a table pointer, each with
    the items of its table. *)
Definition declared_objects : list (list field * list vt_item) :=
  [(GUIDialog_Wrapped, GUIDialog_Wrapped_VTable_items);
   (GUIDropDownMenu_Wrapped, GUIDropDownMenu_Wrapped_VTable_items);
   (GUITextBox_Wrapped, GUITextBox_Wrapped_VTable_items)].

(* ================================================================= *)
(** ** A test bench *)

(** A mock of the foreign side: the dialog class's table in ROM, three
    dialog objects pointing to it, two event descriptors, and room for
    three wrappers. *)
Definition rom_table : Z := 0x80001000.
Definition rom_OnEvent : Z := 0x80002000.
Definition rom_AddElement : Z := 0x80003000.
Definition obj_a : Z := 0x0C000000.
Definition obj_b : Z := 0x0C000100.
Definition obj_c : Z := 0x0C000200.
Definition wrap_a : Z := 0x0C100000.
Definition wrap_b : Z := 0x0C100400.
Definition wrap_c : Z := 0x0C100800.
Definition ev5 : Z := 0x0C200000.
Definition ev1 : Z := 0x0C200010.
Definition tramp_addr : Z := 0x8C052000.

(** The [OnEvent] slot has adjustor offset 0, the [AddElement] slot -4. *)
Definition bench_mem : mem :=
  write_event
    (write_event
       (store32 (store32 (store32
          (store32 (store32 (store32 (store32 (fun _ => 0)
             (rom_table + 24) 0)
             (rom_table + 32) rom_OnEvent)
             (rom_table + 48) 0xFFFFFFFC)
             (rom_table + 56) rom_AddElement)
          (obj_a + o_vtable) rom_table)
          (obj_b + o_vtable) rom_table)
          (obj_c + o_vtable) rom_table)
       ev5 5 0 0)
    ev1 1 0 0.

(** The firmware's own event handler answers 1000 plus the event type;
    its [AddElement] answers the self-pointer it was given. *)
Definition bench_firmware (f : Z) (args : list Z) (m : mem)
  : option (Z * mem) :=
  if f =? rom_OnEvent then
    match args with
    | [_; event] => Some (1000 + event_type m event, m)
    | _ => None
    end
  else if f =? rom_AddElement then
    match args with
    | [self; _; _] => Some (self, m)
    | _ => None
    end
  else None.

(** The overriders: the wrappers at [wrap_a] and [wrap_b] answer every
    event with their own sentinel; the one at [wrap_c] answers 1 to events
    of type 5 and falls through to the original handler for the rest. *)
Definition bench_virtual (this dialog event : Z) (m : mem)
  : option (Z * mem) :=
  if this =? wrap_a then Some (101, m)
  else if this =? wrap_b then Some (102, m)
  else if this =? wrap_c then
    if event_type m event =? 5 then Some (1, m)
    else GUIDialog_OnEvent tramp_addr (fun _ _ _ _ => None) bench_firmware
           this dialog event m
  else None.

Definition bench_instances : list (Z * Z) :=
  [(wrap_a, obj_a); (wrap_b, obj_b); (wrap_c, obj_c)].

(** Overriders with a hit counter, kept in a member that follows the
    [GUIDialog] base: each call adds one and answers the new count. *)
Definition bench_counting (this dialog event : Z) (m : mem)
  : option (Z * mem) :=
  if (this =? wrap_a) || (this =? wrap_b) then
    let hits := load32 m (this + GUIDialog_size) + 1 in
    Some (hits, store32 m (this + GUIDialog_size) hits)
  else None.

Definition bench_pair : list (Z * Z) := [(wrap_a, obj_a); (wrap_b, obj_b)].

Definition bench_calls : list (Z * Z * Z) :=
  [(wrap_a, obj_a, ev5); (wrap_b, obj_b, ev1); (wrap_a, obj_a, ev1);
   (wrap_a, obj_a, ev5); (wrap_b, obj_b, ev5)].

(* ================================================================= *)
(** * Properties *)

(** Proof steps used throughout. *)

Ltac euclid := Z.to_euclidean_division_equations; lia.

Ltac cons_eq :=
  repeat match goal with
         | |- _ :: _ = _ :: _ => apply (f_equal2 cons); [lia |]
         end;
  reflexivity.

Ltac split_name name lit :=
  destruct (String.eqb_spec name lit) as [-> | _].

Ltac offsets :=
  unfold GUIDialog_size, VTable_size, o_vtable, o_me, o_OnEvent,
    o_OnEvent_Offset, o_m_wrapped, o_m_oldVTable, o_m_vtable in *.

Ltac bench :=
  unfold wrap_a, wrap_b, wrap_c, obj_a, obj_b, obj_c, tramp_addr,
    GUIDialog_size, VTable_size, o_vtable, o_m_vtable; lia.

(* ================================================================= *)
(** ** [GetEventType] *)

Lemma int32_t_small (x : Z) : - 2 ^ 31 <= x < 2 ^ 31 -> int32_t x = x.
Proof.
  intros H. unfold int32_t.
  destruct (Z_lt_le_dec x 0) as [Hneg | Hpos].
  - replace (x mod 2 ^ 32) with (x + 2 ^ 32) by euclid.
    destruct (Z.ltb_spec (x + 2 ^ 32) (2 ^ 31)); lia.
  - rewrite Z.mod_small by lia.
    destruct (Z.ltb_spec x (2 ^ 31)); lia.
Qed.

Lemma land_mul16_8 (q : Z) : Z.land (q * 2 ^ 4) (2 ^ 3) = 0.
Proof.
  apply Z.bits_inj'. intros n Hn.
  rewrite Z.land_spec, Z.bits_0.
  destruct (Z.eq_dec n 3) as [-> | Hne].
  - rewrite Z.mul_pow2_bits_low by lia. reflexivity.
  - rewrite (Z.pow2_bits_false 3 n) by lia. apply andb_false_r.
Qed.

Lemma lor_mul16_8 (q : Z) : Z.lor (q * 2 ^ 4) (2 ^ 3) = q * 2 ^ 4 + 2 ^ 3.
Proof.
  rewrite <- (Z.add_lor_land (q * 2 ^ 4) (2 ^ 3)), land_mul16_8. lia.
Qed.

Lemma GetEventType_closed (e : Z) :
  0 <= e < 2 ^ 16 -> GetEventType e = ((e + 8) * 2 ^ 4 + 2 ^ 3) mod 2 ^ 16.
Proof.
  intros He. unfold GetEventType, int_add, int_shl, int_or, uint16_t.
  rewrite (int32_t_small (e + 8)) by lia.
  rewrite !Z.shiftl_mul_pow2 by lia.
  rewrite (int32_t_small ((e + 8) * 2 ^ 4)) by lia.
  rewrite (int32_t_small (1 * 2 ^ 3)) by lia.
  rewrite Z.mul_1_l, lor_mul16_8.
  rewrite int32_t_small by lia. reflexivity.
Qed.

Lemma low_bits_of_8 (r : Z) :
  r mod 2 ^ 4 = 2 ^ 3 ->
  Z.testbit r 3 = true /\ Z.testbit r 0 = false
  /\ Z.testbit r 1 = false /\ Z.testbit r 2 = false.
Proof.
  intros H.
  assert (Hb : forall n, 0 <= n < 4 -> Z.testbit r n = Z.testbit (2 ^ 3) n).
  { intros n Hn. rewrite <- H. symmetry. apply Z.mod_pow2_bits_low. lia. }
  repeat split; rewrite Hb by lia; reflexivity.
Qed.

(** C10: for every 16-bit [eventType], [GetEventType] returns
    [((eventType + 8) << 4) | (1 << 3)] reduced to 16 bits; wrapping every
    intermediate value to 16 bits gives the same number; the result is a
    16-bit value with bit 3 set and bits 0 to 2 clear. *)
Theorem GetEventType_spec (eventType : Z) :
  0 <= eventType < 2 ^ 16 ->
  GetEventType eventType
    = uint16_t (Z.lor (Z.shiftl (eventType + 8) 4) (Z.shiftl 1 3))
  /\ GetEventType eventType = GetEventType_wrap16 eventType
  /\ 0 <= GetEventType eventType < 2 ^ 16
  /\ Z.testbit (GetEventType eventType) 3 = true
  /\ Z.testbit (GetEventType eventType) 0 = false
  /\ Z.testbit (GetEventType eventType) 1 = false
  /\ Z.testbit (GetEventType eventType) 2 = false.
Proof.
  intros He.
  pose proof (GetEventType_closed eventType He) as Hc.
  split; [| split; [| split]].
  - rewrite Hc. unfold uint16_t.
    rewrite !Z.shiftl_mul_pow2 by lia.
    rewrite Z.mul_1_l, lor_mul16_8. reflexivity.
  - rewrite Hc. unfold GetEventType_wrap16, uint16_t.
    rewrite !Z.shiftl_mul_pow2 by lia.
    rewrite Z.mul_1_l.
    replace (((eventType + 8) mod 2 ^ 16 * 2 ^ 4) mod 2 ^ 16)
      with (((eventType + 8) mod 2 ^ 12) * 2 ^ 4) by euclid.
    rewrite (Z.mod_small (2 ^ 3)) by lia.
    rewrite lor_mul16_8. euclid.
  - rewrite Hc. apply Z.mod_pos_bound. lia.
  - apply low_bits_of_8. rewrite Hc. euclid.
Qed.

Lemma GetEventType_spec_witness :
  GetEventType 65535 = 120 /\ Z.testbit (GetEventType 65535) 3 = true.
Proof.
  pose proof (GetEventType_spec 65535 ltac:(lia)) as H.
  split; [reflexivity | apply H].
Defined.

(* ================================================================= *)
(** ** Alignment *)

Lemma align_up_4 (x : Z) : x mod 4 = 0 -> align_up x 4 = x.
Proof. unfold align_up. euclid. Qed.

Lemma align_up_1 (x : Z) : align_up x 1 = x.
Proof. unfold align_up. rewrite Z.div_1_r. lia. Qed.

Lemma align_up_ge (x a : Z) : 0 < a -> x <= align_up x a.
Proof.
  intros Ha. unfold align_up.
  pose proof (Z.div_mod (x + a - 1) a ltac:(lia)) as Hd.
  pose proof (Z.mod_pos_bound (x + a - 1) a Ha) as Hm. nia.
Qed.

(* ================================================================= *)
(** ** The static size assertions *)

Lemma end_from_lower (sa : list (Z * Z)) : forall off,
  Forall (fun p => 0 < snd p) sa -> off + sum_sizes sa <= end_from off sa.
Proof.
  induction sa as [| [s a] sa IH]; intros off Hsa; simpl.
  - lia.
  - inversion Hsa as [| ? ? Ha Hr]; subst. simpl in Ha.
    specialize (IH (align_up off a + s) Hr).
    pose proof (align_up_ge off a Ha). unfold sum_sizes in *. lia.
Qed.

Lemma max_align_pos (sa : list (Z * Z)) : 0 < max_align sa.
Proof.
  induction sa as [| [s a] sa IH]; simpl; lia.
Qed.

Lemma sizeof_struct_lower (dm : DataModel) (fs : list field) :
  Forall (fun p => 0 < snd p) (map (size_align dm) fs) ->
  sum_sizes (map (size_align dm) fs) <= sizeof dm (TStruct fs).
Proof.
  intros Hpos.
  change (sizeof dm (TStruct fs))
    with (align_up (end_from 0 (map (size_align dm) fs))
                   (max_align (map (size_align dm) fs))).
  pose proof (end_from_lower _ 0 Hpos).
  pose proof (align_up_ge (end_from 0 (map (size_align dm) fs)) _
                (max_align_pos (map (size_align dm) fs))).
  lia.
Qed.

Lemma dialog_size_needs_4_byte_pointers (p : Z) :
  0 < p -> p <> 4 ->
  sizeof (mkDataModel p p) (TStruct GUIDialog_Wrapped) <> 0xA8.
Proof.
  intros Hp Hne.
  destruct (Z_lt_le_dec p 4) as [Hlt | Hge].
  - assert (Hc : p = 1 \/ p = 2 \/ p = 3) by lia.
    destruct Hc as [-> | [-> | ->]]; vm_compute; discriminate.
  - assert (Hlow : 164 + p
                   <= sizeof (mkDataModel p p) (TStruct GUIDialog_Wrapped)).
    { apply Z.le_trans
        with (sum_sizes (map (size_align (mkDataModel p p)) GUIDialog_Wrapped)).
      - unfold sum_sizes. cbn -[Z.add]. lia.
      - apply sizeof_struct_lower. repeat constructor; cbn; lia. }
    lia.
Qed.

Lemma builds_iff (dm : DataModel) :
  builds dm = true
  <-> sizeof dm (TStruct GUIDialog_Wrapped) = 0xA8
      /\ sizeof dm (TStruct GUITextBox_Wrapped) = 0xA0.
Proof.
  unfold builds, static_asserts. cbn [forallb].
  rewrite andb_true_r, andb_true_iff, !Z.eqb_eq. reflexivity.
Qed.

(** A data model with naturally aligned pointers on which the header
    builds is the target's. *)
Lemma builds_pins_data_model (dm : DataModel) :
  0 < ptr_size dm -> ptr_align dm = ptr_size dm -> builds dm = true ->
  dm = sh4.
Proof.
  destruct dm as [p a]. cbn [ptr_size ptr_align]. intros Hp -> Hb.
  apply builds_iff in Hb. destruct Hb as [Hd _].
  destruct (Z.eq_dec p 4) as [-> | Hne]; [reflexivity |].
  exfalso. exact (dialog_size_needs_4_byte_pointers p Hp Hne Hd).
Qed.

(** C6, as the code has it: the structures whose size is asserted are the
    foreign objects [GUIDialog_Wrapped] (0xA8 bytes) and
    [GUITextBox_Wrapped] (0xA0 bytes), not their dispatch tables.  On the
    target both assertions hold; a translation unit builds exactly when
    both sizes match, so a mismatch stops the build: a target whose
    naturally aligned pointers are not four bytes wide, such as a 64-bit
    host, does not build.  The declared dispatch tables are 0x288 and
    0x18C bytes. *)
Theorem object_sizes_are_asserted :
  sizeof sh4 (TStruct GUIDialog_Wrapped) = 0xA8
  /\ sizeof sh4 (TStruct GUITextBox_Wrapped) = 0xA0
  /\ builds sh4 = true
  /\ (forall dm,
         builds dm = true
         <-> sizeof dm (TStruct GUIDialog_Wrapped) = 0xA8
             /\ sizeof dm (TStruct GUITextBox_Wrapped) = 0xA0)
  /\ (forall dm,
         0 < ptr_size dm -> ptr_align dm = ptr_size dm -> ptr_size dm <> 4 ->
         builds dm = false)
  /\ builds lp64 = false
  /\ sizeof sh4 (TStruct GUIDialog_Wrapped_VTable) = 0x288
  /\ sizeof sh4 (TStruct GUITextBox_Wrapped_VTable) = 0x18C.
Proof.
  split; [reflexivity |]. split; [reflexivity |]. split; [reflexivity |].
  split; [exact builds_iff |].
  split; [| repeat split].
  intros [p a] Hp Ha Hne. simpl in Hp, Ha, Hne. subst a.
  destruct (builds (mkDataModel p p)) eqn:Hb; [| reflexivity].
  apply builds_iff in Hb. destruct Hb as [Hd _].
  exfalso. exact (dialog_size_needs_4_byte_pointers p Hp Hne Hd).
Qed.

(** C6, as stated, fails: the dialog's dispatch table layout is not 0xA8
    bytes and the text box's is not 0xA0 bytes. *)
Lemma table_sizes_differ :
  sizeof sh4 (TStruct GUIDialog_Wrapped_VTable) <> 0xA8
  /\ sizeof sh4 (TStruct GUITextBox_Wrapped_VTable) <> 0xA0.
Proof. split; vm_compute; discriminate. Qed.

(* ================================================================= *)
(** ** Layout of the dispatch tables *)

Lemma offsets_from_app (l1 l2 : list (Z * Z)) : forall off,
  offsets_from off (l1 ++ l2)
  = offsets_from off l1 ++ offsets_from (end_from off l1) l2.
Proof.
  induction l1 as [| [s a] l1 IH]; intros off; simpl.
  - reflexivity.
  - now rewrite IH.
Qed.

Lemma end_from_app (l1 l2 : list (Z * Z)) : forall off,
  end_from off (l1 ++ l2) = end_from (end_from off l1) l2.
Proof.
  induction l1 as [| [s a] l1 IH]; intros off; simpl; auto.
Qed.

Lemma offsets_from_length (sa : list (Z * Z)) : forall off,
  List.length (offsets_from off sa) = List.length sa.
Proof.
  induction sa as [| [s a] sa IH]; intros off; simpl; auto.
Qed.

Lemma combine_app_eq {A B : Type} (a1 a2 : list A) (b1 b2 : list B) :
  List.length a1 = List.length b1 ->
  combine (a1 ++ a2) (b1 ++ b2) = combine a1 b1 ++ combine a2 b2.
Proof.
  revert b1. induction a1 as [| x a1 IH]; intros [| y b1] H; simpl in *;
    try discriminate; auto.
  f_equal. apply IH. lia.
Qed.

Lemma shift_combine (d : Z) (names : list string) (offs : list Z) :
  shift d (combine names offs) = combine names (map (Z.add d) offs).
Proof.
  revert offs. induction names as [| n names IH]; intros [| o offs]; simpl;
    auto.
  f_equal. apply IH.
Qed.

Lemma item_block (it : vt_item) (off : Z) :
  off mod 4 = 0 -> 0 <= item_slots it ->
  offsets_from off (sa_of (item_fields it))
    = map (Z.add off) (offsets_from 0 (sa_of (item_fields it)))
  /\ end_from off (sa_of (item_fields it)) = off + 12 * item_slots it.
Proof.
  intros Hoff Hn. unfold sa_of.
  destruct it as [| n x | name]; cbn -[Z.mul Z.add align_up].
  - rewrite (align_up_4 off) by assumption.
    rewrite (align_up_4 (off + 4)) by euclid.
    change (align_up 0 4) with 0. change (align_up (0 + 4) 4) with 4.
    split; [cons_eq | lia].
  - rewrite (align_up_4 off) by assumption.
    change (align_up 0 4) with 0.
    split; [cons_eq | lia].
  - rewrite (align_up_4 off) by assumption.
    rewrite (align_up_4 (off + 4)) by euclid.
    rewrite (align_up_4 (off + 4 + 4)) by euclid.
    change (align_up 0 4) with 0. change (align_up (0 + 4) 4) with 4.
    change (align_up (4 + 4) 4) with 8.
    split; [cons_eq | lia].
Qed.

Lemma fake_counts_ok_cons (it : vt_item) (items : list vt_item) :
  fake_counts_ok (it :: items) = true ->
  0 <= item_slots it /\ fake_counts_ok items = true.
Proof.
  unfold fake_counts_ok. simpl. intros H.
  apply andb_true_iff in H. destruct H as [H1 H2].
  split; [apply Z.leb_le; exact H1 | exact H2].
Qed.

Lemma fake_counts_ok_app (l1 l2 : list vt_item) :
  fake_counts_ok (l1 ++ l2) = true ->
  fake_counts_ok l1 = true /\ fake_counts_ok l2 = true.
Proof.
  unfold fake_counts_ok. rewrite forallb_app. apply andb_true_iff.
Qed.

Lemma table_block (items : list vt_item) : forall off,
  off mod 4 = 0 -> fake_counts_ok items = true ->
  offsets_from off (sa_of (table_fields items))
    = map (Z.add off) (offsets_from 0 (sa_of (table_fields items)))
  /\ end_from off (sa_of (table_fields items)) = off + 12 * slots items.
Proof.
  induction items as [| it items IH]; intros off Hoff Hok.
  - simpl. split; [reflexivity | lia].
  - apply fake_counts_ok_cons in Hok. destruct Hok as [Hn Hok].
    change (table_fields (it :: items))
      with (item_fields it ++ table_fields items).
    unfold sa_of in *. rewrite map_app.
    rewrite !offsets_from_app, !end_from_app.
    destruct (item_block it off Hoff Hn) as [Ho He].
    destruct (item_block it 0 eq_refl Hn) as [_ He0].
    unfold sa_of in *. rewrite Ho, He, He0.
    destruct (IH (off + 12 * item_slots it) ltac:(euclid) Hok) as [IHo IHe].
    destruct (IH (0 + 12 * item_slots it) ltac:(euclid) Hok) as [IHo0 _].
    rewrite IHo, IHe, IHo0. split.
    + rewrite map_app, map_map. f_equal.
      apply map_ext. intros; lia.
    + change (slots (it :: items)) with (item_slots it + slots items). lia.
Qed.

Lemma table_max_align (items : list vt_item) :
  max_align (sa_of (table_fields items)) = 1
  \/ max_align (sa_of (table_fields items)) = 4.
Proof.
  induction items as [| it items IH]; [left; reflexivity |].
  right.
  assert (Hm : 1 <= max_align (sa_of (table_fields items)) <= 4)
    by (destruct IH as [-> | ->]; lia).
  clear IH. unfold max_align, sa_of, table_fields in *.
  destruct it as [| n x | name]; cbn -[Z.max]; lia.
Qed.

Lemma table_sizeof (items : list vt_item) :
  fake_counts_ok items = true ->
  sizeof sh4 (TStruct (table_fields items)) = 12 * slots items.
Proof.
  intros Hok.
  change (sizeof sh4 (TStruct (table_fields items)))
    with (align_up (end_from 0 (sa_of (table_fields items)))
                   (max_align (sa_of (table_fields items)))).
  destruct (table_block items 0 eq_refl Hok) as [_ ->].
  destruct (table_max_align items) as [-> | ->].
  - rewrite align_up_1. lia.
  - rewrite align_up_4; [lia | euclid].
Qed.

Lemma table_layout_split (pre post : list vt_item) (it : vt_item) :
  fake_counts_ok (pre ++ it :: post) = true ->
  layout sh4 (table_fields (pre ++ it :: post))
  = layout sh4 (table_fields pre)
    ++ shift (12 * slots pre) (layout sh4 (item_fields it))
    ++ shift (12 * (slots pre + item_slots it))
             (layout sh4 (table_fields post)).
Proof.
  intros Hok.
  apply fake_counts_ok_app in Hok. destruct Hok as [Hpre Hrest].
  apply fake_counts_ok_cons in Hrest. destruct Hrest as [Hn Hpost].
  unfold layout, table_fields. rewrite flat_map_app. simpl flat_map.
  fold (table_fields pre). fold (table_fields post).
  rewrite !map_app, !offsets_from_app.
  fold (sa_of (table_fields pre)). fold (sa_of (item_fields it)).
  fold (sa_of (table_fields post)).
  destruct (table_block pre 0 eq_refl Hpre) as [_ Hpe].
  rewrite Hpe.
  destruct (item_block it (0 + 12 * slots pre) ltac:(euclid) Hn) as [Hio Hie].
  rewrite Hio, Hie.
  destruct (table_block post (0 + 12 * slots pre + 12 * item_slots it)
              ltac:(euclid) Hpost) as [Hpo _].
  rewrite Hpo.
  rewrite !combine_app_eq
    by (unfold sa_of;
        now rewrite ?length_map, ?offsets_from_length, ?length_map).
  rewrite !shift_combine.
  rewrite (map_ext (Z.add (0 + 12 * slots pre)) (Z.add (12 * slots pre)))
    by (intros; lia).
  rewrite (map_ext (Z.add (0 + 12 * slots pre + 12 * item_slots it))
                   (Z.add (12 * (slots pre + item_slots it))))
    by (intros; lia).
  reflexivity.
Qed.

Lemma tables_as_items :
  GUIDialog_Wrapped_VTable = table_fields GUIDialog_Wrapped_VTable_items
  /\ GUIDropDownMenu_Wrapped_VTable
     = table_fields GUIDropDownMenu_Wrapped_VTable_items
  /\ GUITextBox_Wrapped_VTable = table_fields GUITextBox_Wrapped_VTable_items.
Proof. repeat split. Qed.

Lemma declared_entry_offsets (items : list vt_item) (name : string) (k : Z) :
  In items declared_tables ->
  entry_index items name = Some k ->
  offsetof sh4 (table_fields items) (String.append name "_Offset")
    = Some (12 * k)
  /\ offsetof sh4 (table_fields items) name = Some (12 * k + 8).
Proof.
  unfold declared_tables. simpl In.
  intros [<- | [<- | [<- | []]]]; cbn [entry_index
    GUIDialog_Wrapped_VTable_items GUIDropDownMenu_Wrapped_VTable_items
    GUITextBox_Wrapped_VTable_items item_slots option_map].
  - split_name name "OnEvent"%string;
      [intros [= <-]; split; reflexivity |].
    split_name name "AddElement"%string;
      [intros [= <-]; split; reflexivity |].
    split_name name "Refresh"%string;
      [intros [= <-]; split; reflexivity |].
    split_name name "ShowDialog"%string;
      [intros [= <-]; split; reflexivity |].
    discriminate.
  - split_name name "AddMenuItem"%string;
      [intros [= <-]; split; reflexivity |].
    split_name name "SetScrollBarVisibility"%string;
      [intros [= <-]; split; reflexivity |].
    discriminate.
  - split_name name "SetText"%string;
      [intros [= <-]; split; reflexivity |].
    discriminate.
Qed.

(** C9: on the target, which is the only data model with naturally
    aligned pointers on which the header builds, every table entry is
    three 32-bit words (adjustor offset, unused word, function pointer, at
    bytes 0, 4 and 8), a fake entry for [n] slots is [n * 3] words, and no
    padding is inserted between declarations: each item of a table starts
    at twelve bytes times the number of slots declared before it, the
    whole table is twelve bytes per slot, and every named entry of the
    declared tables lies at twelve times its slot number. *)
Theorem table_slots_are_three_words :
  (forall dm,
      0 < ptr_size dm -> ptr_align dm = ptr_size dm -> builds dm = true ->
      dm = sh4)
  /\ (forall name,
      layout sh4 (VTABLE_ENTRY name)
        = [(String.append name "_Offset", 0);
           (String.append name "_Unused", 4);
           (name, 8)]
      /\ map snd (VTABLE_ENTRY name) = [TInt32; TUInt32; TFnPtr]
      /\ sizeof sh4 (TStruct (VTABLE_ENTRY name)) = 3 * 4)
  /\ (forall n x,
         0 <= n -> sizeof sh4 (TStruct (VTABLE_FAKE_ENTRY n x)) = (n * 3) * 4)
  /\ (forall pre it post,
         fake_counts_ok (pre ++ it :: post) = true ->
         layout sh4 (table_fields (pre ++ it :: post))
         = layout sh4 (table_fields pre)
           ++ shift (12 * slots pre) (layout sh4 (item_fields it))
           ++ shift (12 * (slots pre + item_slots it))
                    (layout sh4 (table_fields post))
         /\ sizeof sh4 (TStruct (table_fields (pre ++ it :: post)))
            = 12 * slots (pre ++ it :: post))
  /\ (GUIDialog_Wrapped_VTable = table_fields GUIDialog_Wrapped_VTable_items
      /\ GUIDropDownMenu_Wrapped_VTable
         = table_fields GUIDropDownMenu_Wrapped_VTable_items
      /\ GUITextBox_Wrapped_VTable
         = table_fields GUITextBox_Wrapped_VTable_items)
  /\ (forall items name k,
         In items declared_tables ->
         entry_index items name = Some k ->
         offsetof sh4 (table_fields items) (String.append name "_Offset")
           = Some (12 * k)
         /\ offsetof sh4 (table_fields items) name = Some (12 * k + 8)).
Proof.
  split; [exact builds_pins_data_model |].
  split; [| split; [| split; [| split]]].
  - intros name. repeat split.
  - intros n x Hn.
    change (VTABLE_FAKE_ENTRY n x) with (table_fields [FAKE n x]).
    rewrite table_sizeof.
    + simpl slots. lia.
    + unfold fake_counts_ok. simpl. rewrite andb_true_r.
      apply Z.leb_le. exact Hn.
  - intros pre it post Hok. split.
    + apply table_layout_split. exact Hok.
    + apply table_sizeof. exact Hok.
  - exact tables_as_items.
  - exact declared_entry_offsets.
Qed.

(** The dialog table, item by item: where the generic statement puts the
    [OnEvent] entry and how large the table is. *)
Lemma table_slots_are_three_words_witness :
  layout sh4 (table_fields
                ([IDENT; FAKE 1 "0"] ++ ENTRY "OnEvent"
                 :: [FAKE 1 "1"; ENTRY "AddElement"; FAKE 4 "2";
                     ENTRY "Refresh"; FAKE 23 "3"; ENTRY "ShowDialog";
                     FAKE 20 "4"]))
  = layout sh4 (table_fields [IDENT; FAKE 1 "0"])
    ++ shift (12 * 2) (layout sh4 (item_fields (ENTRY "OnEvent")))
    ++ shift (12 * (2 + 1))
             (layout sh4 (table_fields
                [FAKE 1 "1"; ENTRY "AddElement"; FAKE 4 "2";
                 ENTRY "Refresh"; FAKE 23 "3"; ENTRY "ShowDialog";
                 FAKE 20 "4"]))
  /\ sizeof sh4 (TStruct GUIDialog_Wrapped_VTable) = 12 * 54.
Proof.
  destruct table_slots_are_three_words as [_ [_ [_ [H _]]]].
  destruct (H [IDENT; FAKE 1 "0"] (ENTRY "OnEvent")
              [FAKE 1 "1"; ENTRY "AddElement"; FAKE 4 "2";
               ENTRY "Refresh"; FAKE 23 "3"; ENTRY "ShowDialog";
               FAKE 20 "4"] eq_refl) as [Hl Hs].
  split; [exact Hl | exact Hs].
Defined.

(* ================================================================= *)
(** ** Memory *)

Lemma load8_store8_same (m : mem) (a v : Z) :
  load8 (store8 m a v) a = v mod 256.
Proof.
  unfold load8, store8. rewrite Z.eqb_refl. apply Z.mod_mod. lia.
Qed.

Lemma store8_other (m : mem) (a v x : Z) : x <> a -> store8 m a v x = m x.
Proof.
  intros H. unfold store8. destruct (Z.eqb_spec x a); [contradiction | auto].
Qed.

Lemma load8_store8_other (m : mem) (a v x : Z) :
  x <> a -> load8 (store8 m a v) x = load8 m x.
Proof. intros H. unfold load8. now rewrite store8_other. Qed.

Lemma load8_range (m : mem) (a : Z) : 0 <= load8 m a < 256.
Proof. unfold load8. apply Z.mod_pos_bound. lia. Qed.

Lemma store16_other (m : mem) (a v x : Z) :
  x < a \/ a + 2 <= x -> store16 m a v x = m x.
Proof.
  intros H. unfold store16. rewrite !store8_other by lia. reflexivity.
Qed.

Lemma store32_other (m : mem) (a v x : Z) :
  x < a \/ a + 4 <= x -> store32 m a v x = m x.
Proof.
  intros H. unfold store32. rewrite !store8_other by lia. reflexivity.
Qed.

Lemma load8_ext (m1 m2 : mem) (a : Z) : m1 a = m2 a -> load8 m1 a = load8 m2 a.
Proof. unfold load8. now intros ->. Qed.

Lemma load16_ext (m1 m2 : mem) (a b : Z) :
  (forall i, 0 <= i < 2 -> load8 m1 (a + i) = load8 m2 (b + i)) ->
  load16 m1 a = load16 m2 b.
Proof.
  intros H. unfold load16.
  pose proof (H 0 ltac:(lia)) as H0. rewrite !Z.add_0_r in H0.
  rewrite H0, (H 1) by lia. reflexivity.
Qed.

Lemma load32_ext (m1 m2 : mem) (a b : Z) :
  (forall i, 0 <= i < 4 -> load8 m1 (a + i) = load8 m2 (b + i)) ->
  load32 m1 a = load32 m2 b.
Proof.
  intros H. unfold load32.
  pose proof (H 0 ltac:(lia)) as H0. rewrite !Z.add_0_r in H0.
  rewrite H0, (H 1), (H 2), (H 3) by lia. reflexivity.
Qed.

Lemma load32_range (m : mem) (a : Z) : 0 <= load32 m a < 2 ^ 32.
Proof.
  unfold load32.
  pose proof (load8_range m a). pose proof (load8_range m (a + 1)).
  pose proof (load8_range m (a + 2)). pose proof (load8_range m (a + 3)).
  lia.
Qed.

Lemma load16_store16_same (m : mem) (a v : Z) :
  load16 (store16 m a v) a = v mod 2 ^ 16.
Proof.
  unfold load16, store16.
  rewrite load8_store8_same.
  rewrite load8_store8_other by lia. rewrite load8_store8_same.
  euclid.
Qed.

Lemma load32_store32_same (m : mem) (a v : Z) :
  load32 (store32 m a v) a = v mod 2 ^ 32.
Proof.
  unfold load32, store32.
  rewrite load8_store8_same.
  rewrite (load8_store8_other _ (a + 3) _ (a + 2)) by lia.
  rewrite load8_store8_same.
  rewrite (load8_store8_other _ (a + 3) _ (a + 1)) by lia.
  rewrite (load8_store8_other _ (a + 2) _ (a + 1)) by lia.
  rewrite load8_store8_same.
  rewrite (load8_store8_other _ (a + 3) _ a) by lia.
  rewrite (load8_store8_other _ (a + 2) _ a) by lia.
  rewrite (load8_store8_other _ (a + 1) _ a) by lia.
  rewrite load8_store8_same.
  euclid.
Qed.

Lemma load32_store32_other (m : mem) (a v b : Z) :
  b + 4 <= a \/ a + 4 <= b -> load32 (store32 m a v) b = load32 m b.
Proof.
  intros H. apply load32_ext. intros i Hi.
  apply load8_ext. apply store32_other. lia.
Qed.

Lemma load8_store32_other (m : mem) (a v x : Z) :
  x < a \/ a + 4 <= x -> load8 (store32 m a v) x = load8 m x.
Proof. intros H. apply load8_ext. now apply store32_other. Qed.

Lemma load32_agree (m1 m2 : mem) (a : Z) :
  agree_on m1 m2 a 4 -> load32 m1 a = load32 m2 a.
Proof. intros H. apply load32_ext. exact H. Qed.

Lemma agree_on_refl (m : mem) (a len : Z) : agree_on m m a len.
Proof. intros i _. reflexivity. Qed.

Lemma load16_store16_other (m : mem) (a v b : Z) :
  b + 2 <= a \/ a + 2 <= b -> load16 (store16 m a v) b = load16 m b.
Proof.
  intros H. apply load16_ext. intros i Hi.
  apply load8_ext. apply store16_other. lia.
Qed.

Lemma load16_store32_other (m : mem) (a v b : Z) :
  b + 2 <= a \/ a + 4 <= b -> load16 (store32 m a v) b = load16 m b.
Proof.
  intros H. apply load16_ext. intros i Hi.
  apply load8_ext. apply store32_other. lia.
Qed.

(* ================================================================= *)
(** ** The event descriptor *)

(** C8: the event descriptor has exactly the members [type] (16 bits),
    [unknown0] (16 bits) and [element] (a pointer), in this order, at bytes
    0, 2 and 4 of an 8-byte record with no padding; reading a descriptor
    gives back the three values the foreign side stored, and looks at
    nothing but those 8 bytes. *)
Theorem event_descriptor_shape :
  map snd GUIDialog_OnEvent_Data = [TUInt16; TUInt16; TPtr]
  /\ layout sh4 GUIDialog_OnEvent_Data
     = [("type"%string, 0); ("unknown0"%string, 2); ("element"%string, 4)]
  /\ sizeof sh4 (TStruct GUIDialog_OnEvent_Data) = 2 + 2 + 4
  /\ (forall m event ty aux element,
         0 <= ty < 2 ^ 16 -> 0 <= aux < 2 ^ 16 -> 0 <= element < 2 ^ 32 ->
         read_event (write_event m event ty aux element) event
         = (ty, aux, element))
  /\ (forall m1 m2 event,
         agree_on m1 m2 event 8 -> read_event m1 event = read_event m2 event).
Proof.
  split; [reflexivity |]. split; [reflexivity |]. split; [reflexivity |].
  split.
  - intros m event ty aux element Hty Haux Hel.
    unfold read_event, write_event, event_type, event_unknown0, event_element.
    change (fld GUIDialog_OnEvent_Data "type") with 0.
    change (fld GUIDialog_OnEvent_Data "unknown0") with 2.
    change (fld GUIDialog_OnEvent_Data "element") with 4.
    rewrite load32_store32_same.
    rewrite !load16_store32_other by lia.
    rewrite load16_store16_same.
    rewrite load16_store16_other by lia.
    rewrite load16_store16_same.
    rewrite !Z.mod_small by lia. reflexivity.
  - intros m1 m2 event Hag.
    unfold read_event, event_type, event_unknown0, event_element.
    change (fld GUIDialog_OnEvent_Data "type") with 0.
    change (fld GUIDialog_OnEvent_Data "unknown0") with 2.
    change (fld GUIDialog_OnEvent_Data "element") with 4.
    f_equal; [f_equal |].
    + apply load16_ext. intros i Hi.
      rewrite <- !Z.add_assoc. apply Hag. lia.
    + apply load16_ext. intros i Hi.
      rewrite <- !Z.add_assoc. apply Hag. lia.
    + apply load32_ext. intros i Hi.
      rewrite <- !Z.add_assoc. apply Hag. lia.
Qed.

(* ================================================================= *)
(** ** The foreign call macros *)

Lemma int32_t_range (x : Z) : - 2 ^ 31 <= int32_t x < 2 ^ 31.
Proof.
  unfold int32_t.
  pose proof (Z.mod_pos_bound x (2 ^ 32) ltac:(lia)).
  destruct (Z.ltb_spec (x mod 2 ^ 32) (2 ^ 31)); lia.
Qed.

(** C2: a call through the entry in slot [k] of a declared table reads the
    signed 32-bit adjustor offset stored in the slot's first word, adds it
    in bytes to the self-pointer, and runs the function pointer held in
    the slot's third word on the adjusted pointer followed by the call's
    own arguments, unchanged and in order; this holds for whatever table
    [vtable] points to, and [VTABLE_CALL] is the same routine applied to
    the table the object itself points to. *)
Theorem VTABLE_CALL_EXT_spec
    (call : Z -> list Z -> mem -> option (Z * mem))
    (items : list vt_item) (name : string) (k : Z)
    (self vtable : Z) (args : list Z) (m : mem) :
  In items declared_tables ->
  entry_index items name = Some k ->
  VTABLE_CALL_EXT call (table_fields items) self vtable name args m
    = call (load32 m (vtable + (12 * k + 8)))
           (ptr_add self (int32_t (load32 m (vtable + 12 * k))) :: args)
           m
  /\ - 2 ^ 31 <= int32_t (load32 m (vtable + 12 * k)) < 2 ^ 31
  /\ (0 <= self + int32_t (load32 m (vtable + 12 * k)) < 2 ^ 32 ->
      ptr_add self (int32_t (load32 m (vtable + 12 * k)))
      = self + int32_t (load32 m (vtable + 12 * k)))
  /\ (forall S vt o_vt,
         offsetof sh4 S vt = Some o_vt ->
         VTABLE_CALL call S (table_fields items) self vt name args m
         = VTABLE_CALL_EXT call (table_fields items) self
             (load32 m (self + o_vt)) name args m).
Proof.
  intros Hin Hk.
  destruct (declared_entry_offsets items name k Hin Hk) as [Hoff Hfn].
  split; [| split; [| split]].
  - unfold VTABLE_CALL_EXT. rewrite Hoff, Hfn. reflexivity.
  - apply int32_t_range.
  - intros Hr. unfold ptr_add, uint32_t. apply Z.mod_small. exact Hr.
  - intros S vt o_vt Hvt. unfold VTABLE_CALL. rewrite Hvt. reflexivity.
Qed.

(** A call through the [AddElement] slot of the ROM table, whose adjustor
    offset is -4. *)
Lemma VTABLE_CALL_EXT_spec_witness :
  VTABLE_CALL_EXT bench_firmware
    (table_fields GUIDialog_Wrapped_VTable_items)
    obj_a rom_table "AddElement" [0x0C300000; 0] bench_mem
  = bench_firmware rom_AddElement [obj_a - 4; 0x0C300000; 0] bench_mem.
Proof.
  destruct (VTABLE_CALL_EXT_spec bench_firmware
              GUIDialog_Wrapped_VTable_items "AddElement" 4
              obj_a rom_table [0x0C300000; 0] bench_mem
              (or_introl eq_refl) eq_refl) as [H _].
  rewrite H. reflexivity.
Defined.

(* ================================================================= *)
(** ** The byte copy *)

Lemma copy_from_frame (n : nat) : forall i dst src m x,
  x < dst + i \/ dst + i + Z.of_nat n <= x ->
  copy_from i n dst src m x = m x.
Proof.
  induction n as [| n IH]; intros i dst src m x Hx; simpl.
  - reflexivity.
  - rewrite IH by lia. apply store8_other. lia.
Qed.

Lemma copy_from_copied (n : nat) : forall i dst src m j,
  dst + i + Z.of_nat n <= src + i \/ src + i + Z.of_nat n <= dst + i ->
  i <= j < i + Z.of_nat n ->
  load8 (copy_from i n dst src m) (dst + j) = load8 m (src + j).
Proof.
  induction n as [| n IH]; intros i dst src m j Hsep Hj.
  - simpl in Hj. lia.
  - simpl copy_from.
    destruct (Z.eq_dec j i) as [-> | Hne].
    + rewrite (load8_ext _ (store8 m (dst + i) (load8 m (src + i))))
        by (apply copy_from_frame; lia).
      rewrite load8_store8_same.
      apply Z.mod_small. apply load8_range.
    + rewrite IH by lia.
      apply load8_store8_other. lia.
Qed.

Lemma copy_bytes_frame (dst src len : Z) (m : mem) (x : Z) :
  0 <= len -> x < dst \/ dst + len <= x ->
  copy_bytes dst src len m x = m x.
Proof.
  intros Hlen Hx. unfold copy_bytes. apply copy_from_frame.
  rewrite Z2Nat.id by lia. lia.
Qed.

Lemma copy_bytes_copied (dst src len : Z) (m : mem) (j : Z) :
  dst + len <= src \/ src + len <= dst ->
  0 <= j < len ->
  load8 (copy_bytes dst src len m) (dst + j) = load8 m (src + j).
Proof.
  intros Hsep Hj. unfold copy_bytes. apply copy_from_copied.
  - rewrite Z2Nat.id by lia. lia.
  - rewrite Z2Nat.id by lia. lia.
Qed.

(* ================================================================= *)
(** ** Construction *)

Section Construction.

Variable tramp : Z.
Variables this w : Z.
Variable m : mem.

(** The foreign object's table pointer lies outside the wrapper. *)
Hypothesis Hsep :
  this + GUIDialog_size <= w + o_vtable \/ w + o_vtable + 4 <= this.

Let old := load32 m (w + o_vtable).
Let m' := GUIDialog_ctor tramp this w m.

Lemma ctor_reads_old :
  load32 (store32 m (this + o_m_wrapped) w) (w + o_vtable) = old.
Proof.
  subst old. offsets. apply load32_store32_other. lia.
Qed.

Lemma ctor_unfold :
  m' = store32
         (store32
            (store32
               (copy_bytes (this + o_m_vtable) old VTable_size
                  (store32 (store32 m (this + o_m_wrapped) w)
                           (this + o_m_oldVTable) old))
               (this + o_m_vtable + o_me) this)
            (this + o_m_vtable + o_OnEvent) tramp)
         (w + o_vtable) (this + o_m_vtable).
Proof.
  subst m'. unfold GUIDialog_ctor. cbv zeta.
  rewrite ctor_reads_old. reflexivity.
Qed.

(** Construction writes inside the wrapper and to the foreign object's
    table pointer, and nowhere else. *)
Lemma ctor_frame (x : Z) :
  x < this \/ this + GUIDialog_size <= x ->
  x < w + o_vtable \/ w + o_vtable + 4 <= x ->
  m' x = m x.
Proof.
  intros Hx1 Hx2. rewrite ctor_unfold. offsets.
  rewrite !store32_other by lia.
  rewrite copy_bytes_frame by lia.
  rewrite !store32_other by lia. reflexivity.
Qed.

Lemma ctor_table_pointer :
  load32 m' (w + o_vtable) = uint32_t (this + o_m_vtable).
Proof.
  rewrite ctor_unfold. apply load32_store32_same.
Qed.

Lemma ctor_me :
  load32 m' (this + o_m_vtable + o_me) = uint32_t this.
Proof.
  rewrite ctor_unfold. offsets.
  rewrite !load32_store32_other by lia.
  apply load32_store32_same.
Qed.

Lemma ctor_OnEvent :
  load32 m' (this + o_m_vtable + o_OnEvent) = uint32_t tramp.
Proof.
  rewrite ctor_unfold. offsets.
  rewrite load32_store32_other by lia.
  apply load32_store32_same.
Qed.

Lemma ctor_m_oldVTable :
  load32 m' (this + o_m_oldVTable) = old.
Proof.
  rewrite ctor_unfold. offsets.
  rewrite !load32_store32_other by lia.
  rewrite (load32_ext _
             (store32 (store32 m (this + 4) w) (this + 8) old)
             (this + 8) (this + 8)).
  - rewrite load32_store32_same.
    apply Z.mod_small. apply load32_range.
  - intros i Hi. apply load8_ext. apply copy_bytes_frame; lia.
Qed.

(** The wrapper refers to the foreign block it was built over. *)
Lemma ctor_GetWrapped :
  GetWrapped m' this = uint32_t w.
Proof.
  unfold GetWrapped. change (fld GUIDialog "m_wrapped") with o_m_wrapped.
  rewrite ctor_unfold. offsets.
  rewrite !load32_store32_other by lia.
  rewrite (load32_ext _
             (store32 (store32 m (this + 4) w) (this + 8) old)
             (this + 4) (this + 4)).
  - rewrite load32_store32_other by lia. apply load32_store32_same.
  - intros i Hi. apply load8_ext. apply copy_bytes_frame; lia.
Qed.

(** Every byte of the Shadow outside [me] and the [OnEvent] function
    pointer is the byte the original table held at the same offset. *)
Lemma ctor_shadow_byte (i : Z) :
  old + VTable_size <= this \/ this + GUIDialog_size <= old ->
  0 <= i < VTable_size ->
  ~ (o_me <= i < o_me + 4) ->
  ~ (o_OnEvent <= i < o_OnEvent + 4) ->
  load8 m' (this + o_m_vtable + i) = load8 m (old + i).
Proof.
  intros Hrom Hi Hme Hev. rewrite ctor_unfold. offsets.
  rewrite !load8_store32_other by lia.
  rewrite copy_bytes_copied by lia.
  rewrite !load8_store32_other by lia. reflexivity.
Qed.

(** The original table is left as it was. *)
Lemma ctor_keeps_original (i : Z) :
  old + VTable_size <= this \/ this + GUIDialog_size <= old ->
  old + VTable_size <= w + o_vtable \/ w + o_vtable + 4 <= old ->
  0 <= i < VTable_size ->
  m' (old + i) = m (old + i).
Proof.
  intros Hrom Hobj Hi. apply ctor_frame; offsets; lia.
Qed.

End Construction.

Lemma agree_on_sub (m1 m2 : mem) (a len b : Z) :
  agree_on m1 m2 a len -> a <= b -> b + 4 <= a + len ->
  load32 m1 b = load32 m2 b.
Proof.
  intros Hag H1 H2. apply load32_ext. intros i Hi.
  replace (b + i) with (a + (b - a + i)) by lia. apply Hag. lia.
Qed.

(* ================================================================= *)
(** ** What construction establishes *)

Section Installed.

Variable tramp : Z.
Variable virtual_OnEvent : Z -> Z -> Z -> mem -> option (Z * mem).
Variable firmware : Z -> list Z -> mem -> option (Z * mem).
Variables this w : Z.
Variable m : mem.

Hypothesis Hlo : 0 <= this.
Hypothesis Hhi : this + GUIDialog_size <= 2 ^ 32.
Hypothesis Hsep :
  this + GUIDialog_size <= w + o_vtable \/ w + o_vtable + 4 <= this.

Lemma ctor_me_exact :
  load32 (GUIDialog_ctor tramp this w m) (this + o_m_vtable + o_me) = this.
Proof.
  rewrite ctor_me by exact Hsep.
  unfold uint32_t. apply Z.mod_small. offsets. lia.
Qed.

Lemma ctor_table_pointer_exact :
  load32 (GUIDialog_ctor tramp this w m) (w + o_vtable)
  = this + o_m_vtable.
Proof.
  rewrite ctor_table_pointer by exact Hsep.
  unfold uint32_t. apply Z.mod_small. offsets. lia.
Qed.

(** Identity recovery in a later memory that left the wrapper alone. *)
Lemma later_recover (m'' : mem) (dialog : Z) :
  agree_on (GUIDialog_ctor tramp this w m) m'' this GUIDialog_size ->
  load32 m'' (dialog + o_vtable) = this + o_m_vtable ->
  recover_me m'' dialog = this.
Proof.
  intros Hag Hd. unfold recover_me. rewrite Hd.
  rewrite <- (agree_on_sub _ _ _ _ (this + o_m_vtable + o_me) Hag)
    by (offsets; lia).
  exact ctor_me_exact.
Qed.

Hypothesis Hrom :
  load32 m (w + o_vtable) + VTable_size <= this
  \/ this + GUIDialog_size <= load32 m (w + o_vtable).

(** A word of the Shadow away from [me] and the [OnEvent] pointer. *)
Lemma ctor_shadow_word (o : Z) :
  0 <= o -> o + 4 <= VTable_size ->
  o_me + 4 <= o -> o + 4 <= o_OnEvent \/ o_OnEvent + 4 <= o ->
  load32 (GUIDialog_ctor tramp this w m) (this + o_m_vtable + o)
  = load32 m (load32 m (w + o_vtable) + o).
Proof.
  intros Ho1 Ho2 Ho3 Ho4. apply load32_ext. intros i Hi.
  replace (this + o_m_vtable + o + i) with (this + o_m_vtable + (o + i))
    by lia.
  replace (load32 m (w + o_vtable) + o + i)
    with (load32 m (w + o_vtable) + (o + i)) by lia.
  apply ctor_shadow_byte; try assumption; offsets; lia.
Qed.

Hypothesis Hobj :
  load32 m (w + o_vtable) + VTable_size <= w + o_vtable
  \/ w + o_vtable + 4 <= load32 m (w + o_vtable).

(** A word of the original table, read after construction. *)
Lemma ctor_original_word (o : Z) :
  0 <= o -> o + 4 <= VTable_size ->
  load32 (GUIDialog_ctor tramp this w m) (load32 m (w + o_vtable) + o)
  = load32 m (load32 m (w + o_vtable) + o).
Proof.
  intros Ho1 Ho2. apply load32_ext. intros i Hi. apply load8_ext.
  rewrite <- !Z.add_assoc.
  apply ctor_keeps_original; try assumption; lia.
Qed.

End Installed.

Lemma deliver_event_via_eq
    (tramp : Z) (virtual_OnEvent : Z -> Z -> Z -> mem -> option (Z * mem))
    (firmware : Z -> list Z -> mem -> option (Z * mem))
    (table self event : Z) (m : mem) :
  deliver_event_via tramp virtual_OnEvent firmware table self event m
  = icall tramp virtual_OnEvent firmware
      (load32 m (table + o_OnEvent))
      [ptr_add self (int32_t (load32 m (table + o_OnEvent_Offset))); event]
      m.
Proof. reflexivity. Qed.

Lemma deliver_event_eq
    (tramp : Z) (virtual_OnEvent : Z -> Z -> Z -> mem -> option (Z * mem))
    (firmware : Z -> list Z -> mem -> option (Z * mem))
    (self event : Z) (m : mem) :
  deliver_event tramp virtual_OnEvent firmware self event m
  = deliver_event_via tramp virtual_OnEvent firmware
      (load32 m (self + o_vtable)) self event m.
Proof. reflexivity. Qed.

Lemma icall_trampoline
    (tramp : Z) (virtual_OnEvent : Z -> Z -> Z -> mem -> option (Z * mem))
    (firmware : Z -> list Z -> mem -> option (Z * mem))
    (dialog event : Z) (m : mem) :
  icall tramp virtual_OnEvent firmware tramp [dialog; event] m
  = OnEvent_Wrap virtual_OnEvent dialog event m.
Proof. unfold icall. now rewrite Z.eqb_refl. Qed.

(* ================================================================= *)
(** ** Identity recovery *)

(** C1: after construction the Identity Slot of the wrapper's Shadow holds
    the wrapper's address, and in any later memory that leaves the wrapper
    untouched, the Trampoline called with a self-pointer whose table pointer
    is the Shadow recovers exactly that address and invokes the [OnEvent]
    of the wrapper living there. *)
Theorem identity_round_trip
    (tramp : Z)
    (virtual_OnEvent : Z -> Z -> Z -> mem -> option (Z * mem))
    (this w : Z) (m : mem) :
  0 <= this -> this + GUIDialog_size <= 2 ^ 32 ->
  this + GUIDialog_size <= w + o_vtable \/ w + o_vtable + 4 <= this ->
  load32 (GUIDialog_ctor tramp this w m) (this + o_m_vtable + o_me) = this
  /\ recover_me (GUIDialog_ctor tramp this w m) w = this
  /\ (forall m'' dialog event,
         agree_on (GUIDialog_ctor tramp this w m) m'' this GUIDialog_size ->
         load32 m'' (dialog + o_vtable) = this + o_m_vtable ->
         recover_me m'' dialog = this
         /\ OnEvent_Wrap virtual_OnEvent dialog event m''
            = virtual_OnEvent this dialog event m'').
Proof.
  intros H0 H32 Hsep.
  split; [now apply ctor_me_exact |]. split.
  - apply (later_recover tramp this w m H0 H32 Hsep).
    + apply agree_on_refl.
    + now apply ctor_table_pointer_exact.
  - intros m'' dialog event Hag Hd.
    pose proof (later_recover tramp this w m H0 H32 Hsep m'' dialog Hag Hd)
      as Hrec.
    split; [exact Hrec |].
    unfold OnEvent_Wrap. rewrite Hrec. reflexivity.
Qed.

(** The first wrapper of the bench, alone. *)
Lemma identity_round_trip_witness :
  recover_me (GUIDialog_ctor tramp_addr wrap_a obj_a bench_mem) obj_a = wrap_a
  /\ OnEvent_Wrap bench_virtual obj_a ev5
       (GUIDialog_ctor tramp_addr wrap_a obj_a bench_mem)
     = Some (101, GUIDialog_ctor tramp_addr wrap_a obj_a bench_mem).
Proof.
  destruct (identity_round_trip tramp_addr bench_virtual wrap_a obj_a
              bench_mem ltac:(bench) ltac:(bench) ltac:(bench))
    as [_ [Hrec Hlater]].
  split; [exact Hrec |].
  destruct (Hlater (GUIDialog_ctor tramp_addr wrap_a obj_a bench_mem)
              obj_a ev5 (agree_on_refl _ _ _)) as [_ Hcall].
  - vm_compute. reflexivity.
  - rewrite Hcall. reflexivity.
Defined.

(* ================================================================= *)
(** ** The copy *)

(** C3: after construction every byte of the Shadow outside the Identity
    Slot's [me] and the [OnEvent] function pointer equals the byte of the
    original table at the same offset; so in every slot other than the
    Identity Slot (slot 0) and the [OnEvent] slot (slot 2) the adjustor
    offset, the unused word and the function pointer are those of the
    original table, the adjustor offset of the [OnEvent] slot is the
    original one too, and the original table itself is unchanged. *)
Theorem shadow_copy_exact (tramp this w : Z) (m : mem) :
  this + GUIDialog_size <= w + o_vtable \/ w + o_vtable + 4 <= this ->
  load32 m (w + o_vtable) + VTable_size <= this
  \/ this + GUIDialog_size <= load32 m (w + o_vtable) ->
  (forall i,
      0 <= i < VTable_size ->
      ~ (o_me <= i < o_me + 4) ->
      ~ (o_OnEvent <= i < o_OnEvent + 4) ->
      load8 (GUIDialog_ctor tramp this w m) (this + o_m_vtable + i)
      = load8 m (load32 m (w + o_vtable) + i))
  /\ (forall k,
         0 <= k -> 12 * k + 12 <= VTable_size -> k <> 0 -> k <> 2 ->
         load32 (GUIDialog_ctor tramp this w m) (this + o_m_vtable + 12 * k)
         = load32 m (load32 m (w + o_vtable) + 12 * k)
         /\ load32 (GUIDialog_ctor tramp this w m)
              (this + o_m_vtable + (12 * k + 4))
            = load32 m (load32 m (w + o_vtable) + (12 * k + 4))
         /\ load32 (GUIDialog_ctor tramp this w m)
              (this + o_m_vtable + (12 * k + 8))
            = load32 m (load32 m (w + o_vtable) + (12 * k + 8)))
  /\ load32 (GUIDialog_ctor tramp this w m)
       (this + o_m_vtable + o_OnEvent_Offset)
     = load32 m (load32 m (w + o_vtable) + o_OnEvent_Offset)
  /\ (forall i,
         0 <= i < VTable_size ->
         load32 m (w + o_vtable) + VTable_size <= w + o_vtable
         \/ w + o_vtable + 4 <= load32 m (w + o_vtable) ->
         GUIDialog_ctor tramp this w m (load32 m (w + o_vtable) + i)
         = m (load32 m (w + o_vtable) + i)).
Proof.
  intros Hsep Hrom.
  split; [| split; [| split]].
  - intros i Hi Hme Hev. apply ctor_shadow_byte; assumption.
  - intros k Hk1 Hk2 Hk3 Hk4.
    repeat split; apply ctor_shadow_word; try assumption; offsets; lia.
  - apply ctor_shadow_word; try assumption; offsets; lia.
  - intros i Hi Hobj. apply ctor_keeps_original; assumption.
Qed.

(** The [AddElement] slot (slot 4) of the Shadow after construction. *)
Lemma shadow_copy_exact_witness :
  load32 (GUIDialog_ctor tramp_addr wrap_a obj_a bench_mem)
    (wrap_a + o_m_vtable + (12 * 4 + 8))
  = rom_AddElement
  /\ int32_t (load32 (GUIDialog_ctor tramp_addr wrap_a obj_a bench_mem)
                (wrap_a + o_m_vtable + 12 * 4))
     = -4.
Proof.
  destruct (shadow_copy_exact tramp_addr wrap_a obj_a bench_mem
              ltac:(bench)
              ltac:(right; vm_compute; discriminate))
    as [_ [Hslot _]].
  destruct (Hslot 4 ltac:(lia) ltac:(unfold VTable_size; lia)
              ltac:(lia) ltac:(lia)) as [Hoff [_ Hfn]].
  split.
  - rewrite Hfn. vm_compute. reflexivity.
  - rewrite Hoff. vm_compute. reflexivity.
Defined.

(* ================================================================= *)
(** ** Falling through to the original *)

(** C5: after construction, in any later memory that leaves the wrapper
    and the original table untouched, the fall-through of [OnEvent] runs
    the function pointer the original table held before shadowing, on the
    arguments the Trampoline received; and an event delivered through the
    object's table, now the Shadow, to a wrapper whose override falls
    through is the very call a delivery through the original table
    makes: the original function pointer on the self-pointer adjusted by
    the original offset. *)
Theorem fall_through_is_original
    (tramp : Z)
    (virtual_OnEvent : Z -> Z -> Z -> mem -> option (Z * mem))
    (firmware : Z -> list Z -> mem -> option (Z * mem))
    (this w : Z) (m : mem) :
  0 <= this -> this + GUIDialog_size <= 2 ^ 32 ->
  0 <= tramp < 2 ^ 32 ->
  this + GUIDialog_size <= w + o_vtable \/ w + o_vtable + 4 <= this ->
  load32 m (w + o_vtable) + VTable_size <= this
  \/ this + GUIDialog_size <= load32 m (w + o_vtable) ->
  load32 m (w + o_vtable) + VTable_size <= w + o_vtable
  \/ w + o_vtable + 4 <= load32 m (w + o_vtable) ->
  forall m'',
    agree_on (GUIDialog_ctor tramp this w m) m'' this GUIDialog_size ->
    agree_on (GUIDialog_ctor tramp this w m) m''
             (load32 m (w + o_vtable)) VTable_size ->
    (forall dialog event,
        GUIDialog_OnEvent tramp virtual_OnEvent firmware this dialog event m''
        = icall tramp virtual_OnEvent firmware
            (load32 m (load32 m (w + o_vtable) + o_OnEvent))
            [dialog; event] m'')
    /\ (forall self event,
           load32 m'' (self + o_vtable) = this + o_m_vtable ->
           load32 m''
             (ptr_add self
                (int32_t (load32 m (load32 m (w + o_vtable)
                                    + o_OnEvent_Offset)))
              + o_vtable)
           = this + o_m_vtable ->
           (forall dialog,
               virtual_OnEvent this dialog event m''
               = GUIDialog_OnEvent tramp virtual_OnEvent firmware
                   this dialog event m'') ->
           deliver_event tramp virtual_OnEvent firmware self event m''
           = deliver_event_via tramp virtual_OnEvent firmware
               (load32 m (w + o_vtable)) self event m''
           /\ deliver_event tramp virtual_OnEvent firmware self event m''
              = icall tramp virtual_OnEvent firmware
                  (load32 m (load32 m (w + o_vtable) + o_OnEvent))
                  [ptr_add self
                     (int32_t (load32 m (load32 m (w + o_vtable)
                                         + o_OnEvent_Offset)));
                   event]
                  m'').
Proof.
  intros H0 H32 Htr Hsep Hrom Hobj m'' Hw Ht.
  set (old := load32 m (w + o_vtable)) in *.
  set (m' := GUIDialog_ctor tramp this w m) in *.
  assert (Hold : load32 m'' (this + o_m_oldVTable) = old).
  { rewrite <- (agree_on_sub _ _ _ _ (this + o_m_oldVTable) Hw)
      by (offsets; lia).
    now apply ctor_m_oldVTable. }
  assert (Horig : forall o, 0 <= o -> o + 4 <= VTable_size ->
                            load32 m'' (old + o) = load32 m (old + o)).
  { intros o Ho1 Ho2.
    rewrite <- (agree_on_sub _ _ _ _ (old + o) Ht) by lia.
    now apply ctor_original_word. }
  assert (Hfwd : forall dialog event,
             GUIDialog_OnEvent tramp virtual_OnEvent firmware
               this dialog event m''
             = icall tramp virtual_OnEvent firmware
                 (load32 m (old + o_OnEvent)) [dialog; event] m'').
  { intros dialog event. unfold GUIDialog_OnEvent.
    rewrite Hold, Horig by (offsets; lia). reflexivity. }
  split; [exact Hfwd |].
  intros self event Hself Hadj Hvirt.
  assert (Hshadow :
            deliver_event tramp virtual_OnEvent firmware self event m''
            = icall tramp virtual_OnEvent firmware
                (load32 m (old + o_OnEvent))
                [ptr_add self (int32_t (load32 m (old + o_OnEvent_Offset)));
                 event] m'').
  { rewrite deliver_event_eq, Hself, deliver_event_via_eq.
    rewrite <- (agree_on_sub _ _ _ _ (this + o_m_vtable + o_OnEvent) Hw)
      by (offsets; lia).
    rewrite <- (agree_on_sub _ _ _ _
                  (this + o_m_vtable + o_OnEvent_Offset) Hw)
      by (offsets; lia).
    subst m'. rewrite ctor_OnEvent by exact Hsep.
    rewrite ctor_shadow_word by (try assumption; offsets; lia).
    unfold uint32_t. rewrite (Z.mod_small tramp) by lia.
    rewrite icall_trampoline. unfold OnEvent_Wrap. fold old.
    rewrite (later_recover tramp this w m H0 H32 Hsep m'' _ Hw Hadj).
    rewrite Hvirt. apply Hfwd. }
  split; [| exact Hshadow].
  rewrite Hshadow, deliver_event_via_eq.
  rewrite !Horig by (offsets; lia). reflexivity.
Qed.

(** An event of type 1 delivered to the third wrapper's object falls
    through: the firmware's handler answers, as it did before shadowing. *)
Lemma fall_through_is_original_witness :
  deliver_event tramp_addr bench_virtual bench_firmware obj_c ev1
    (GUIDialog_ctor tramp_addr wrap_c obj_c bench_mem)
  = Some (1001, GUIDialog_ctor tramp_addr wrap_c obj_c bench_mem)
  /\ deliver_event tramp_addr bench_virtual bench_firmware obj_c ev1
       bench_mem
     = Some (1001, bench_mem).
Proof.
  destruct (fall_through_is_original tramp_addr bench_virtual bench_firmware
              wrap_c obj_c bench_mem
              ltac:(bench) ltac:(bench) ltac:(bench) ltac:(bench)
              ltac:(right; vm_compute; discriminate)
              ltac:(right; vm_compute; discriminate)
              (GUIDialog_ctor tramp_addr wrap_c obj_c bench_mem)
              (agree_on_refl _ _ _) (agree_on_refl _ _ _))
    as [_ Hdeliver].
  destruct (Hdeliver obj_c ev1) as [_ Hcall].
  - vm_compute. reflexivity.
  - vm_compute. reflexivity.
  - intros dialog. vm_compute. reflexivity.
  - split.
    + rewrite Hcall. vm_compute. reflexivity.
    + vm_compute. reflexivity.
Defined.

(** The same wrapper handles an event of type 5 itself. *)
Example bench_override_handles_type_5 :
  deliver_event tramp_addr bench_virtual bench_firmware obj_c ev5
    (GUIDialog_ctor tramp_addr wrap_c obj_c bench_mem)
  = Some (1, GUIDialog_ctor tramp_addr wrap_c obj_c bench_mem).
Proof. vm_compute. reflexivity. Qed.

(* ================================================================= *)
(** ** Several instances *)

Lemma disjoint_spec (a la b lb : Z) :
  disjoint a la b lb = true <-> a + la <= b \/ b + lb <= a.
Proof.
  unfold disjoint. rewrite orb_true_iff, !Z.leb_le. reflexivity.
Qed.

Lemma instance_ok_spec (p : Z * Z) :
  instance_ok p = true ->
  0 <= fst p /\ fst p + GUIDialog_size <= 2 ^ 32
  /\ (fst p + GUIDialog_size <= snd p + o_vtable
      \/ snd p + o_vtable + 4 <= fst p).
Proof.
  unfold instance_ok. rewrite !andb_true_iff, !Z.leb_le, disjoint_spec.
  tauto.
Qed.

Lemma instances_apart_spec (p q : Z * Z) :
  instances_apart p q = true ->
  (fst p + GUIDialog_size <= fst q \/ fst q + GUIDialog_size <= fst p)
  /\ (fst p + GUIDialog_size <= snd q + o_vtable
      \/ snd q + o_vtable + 4 <= fst p)
  /\ (fst q + GUIDialog_size <= snd p + o_vtable
      \/ snd p + o_vtable + 4 <= fst q)
  /\ (snd p + o_vtable + 4 <= snd q + o_vtable
      \/ snd q + o_vtable + 4 <= snd p + o_vtable).
Proof.
  unfold instances_apart. rewrite !andb_true_iff, !disjoint_spec. tauto.
Qed.

Lemma separated_cons (p : Z * Z) (r : list (Z * Z)) :
  separated (p :: r) = true ->
  instance_ok p = true
  /\ (forall q, In q r -> instances_apart p q = true)
  /\ separated r = true.
Proof.
  simpl. rewrite !andb_true_iff, forallb_forall. tauto.
Qed.

Lemma construct_all_frame (tramp : Z) (r : list (Z * Z)) : forall m x,
  separated r = true ->
  (forall q, In q r -> outside q x) ->
  construct_all tramp r m x = m x.
Proof.
  induction r as [| q r IH]; intros m x Hs Hout.
  - reflexivity.
  - apply separated_cons in Hs. destruct Hs as [Hq [_ Hr]].
    apply instance_ok_spec in Hq. destruct Hq as [_ [_ Hsep]].
    change (construct_all tramp (q :: r) m)
      with (construct_all tramp r (GUIDialog_ctor tramp (fst q) (snd q) m)).
    rewrite IH by (try assumption; intros q' Hq'; apply Hout; now right).
    destruct (Hout q (or_introl eq_refl)) as [H1 H2].
    apply ctor_frame; assumption.
Qed.

Lemma construct_all_links (tramp : Z) (ws : list (Z * Z)) :
  forall (m : mem) (i : nat) (this w : Z),
  separated ws = true ->
  nth_error ws i = Some (this, w) ->
  load32 (construct_all tramp ws m) (w + o_vtable) = this + o_m_vtable
  /\ load32 (construct_all tramp ws m) (this + o_m_vtable + o_me) = this.
Proof.
  induction ws as [| p r IH]; intros m i this w Hs Hi.
  - destruct i; discriminate.
  - destruct i as [| i].
    + simpl in Hi. injection Hi as ->.
      apply separated_cons in Hs. destruct Hs as [Hp [Hap Hr]].
      apply instance_ok_spec in Hp. cbn [fst snd] in Hp.
      destruct Hp as [H0 [H32 Hsep]].
      change (construct_all tramp ((this, w) :: r) m)
        with (construct_all tramp r (GUIDialog_ctor tramp this w m)).
      split.
      * transitivity (load32 (GUIDialog_ctor tramp this w m) (w + o_vtable));
          [| now apply ctor_table_pointer_exact].
        apply load32_ext. intros j Hj. apply load8_ext.
        apply construct_all_frame; [assumption |].
        intros q Hq. specialize (Hap q Hq).
        apply instances_apart_spec in Hap. cbn [fst snd] in Hap.
        unfold outside. offsets. lia.
      * transitivity (load32 (GUIDialog_ctor tramp this w m)
                        (this + o_m_vtable + o_me));
          [| now apply ctor_me_exact].
        apply load32_ext. intros j Hj. apply load8_ext.
        apply construct_all_frame; [assumption |].
        intros q Hq. specialize (Hap q Hq).
        apply instances_apart_spec in Hap. cbn [fst snd] in Hap.
        unfold outside. offsets. lia.
    + apply separated_cons in Hs. destruct Hs as [_ [_ Hr]].
      change (construct_all tramp (p :: r) m)
        with (construct_all tramp r (GUIDialog_ctor tramp (fst p) (snd p) m)).
      apply (IH _ i); assumption.
Qed.

Lemma separated_distinct (ws : list (Z * Z)) :
  forall (i j : nat) (p q : Z * Z),
  separated ws = true ->
  nth_error ws i = Some p -> nth_error ws j = Some q -> i <> j ->
  fst p <> fst q.
Proof.
  induction ws as [| a r IH]; intros i j p q Hs Hi Hj Hne.
  - destruct i; discriminate.
  - apply separated_cons in Hs. destruct Hs as [_ [Hap Hr]].
    destruct i as [| i], j as [| j]; simpl in Hi, Hj.
    + contradiction.
    + injection Hi as ->. apply nth_error_In in Hj.
      specialize (Hap q Hj). apply instances_apart_spec in Hap.
      offsets. lia.
    + injection Hj as ->. apply nth_error_In in Hi.
      specialize (Hap p Hi). apply instances_apart_spec in Hap.
      offsets. lia.
    + apply (IH i j); auto.
Qed.

(** C4: for any number of wrappers constructed one after the other over
    independent foreign objects, identity recovery through the foreign
    object of instance [i] yields the address of wrapper [i], which is
    the address of no other instance, and in any later memory that leaves
    that wrapper and that object's table pointer untouched the Trampoline
    invoked on the object runs the [OnEvent] of wrapper [i]. *)
Theorem no_cross_talk
    (tramp : Z)
    (virtual_OnEvent : Z -> Z -> Z -> mem -> option (Z * mem))
    (ws : list (Z * Z)) (m : mem) (i : nat) (this w : Z) :
  separated ws = true ->
  nth_error ws i = Some (this, w) ->
  recover_me (construct_all tramp ws m) w = this
  /\ (forall j this' w',
         nth_error ws j = Some (this', w') -> j <> i ->
         this' <> this /\ recover_me (construct_all tramp ws m) w <> this')
  /\ (forall m'' event,
         agree_on (construct_all tramp ws m) m'' this GUIDialog_size ->
         agree_on (construct_all tramp ws m) m'' (w + o_vtable) 4 ->
         OnEvent_Wrap virtual_OnEvent w event m''
         = virtual_OnEvent this w event m'').
Proof.
  intros Hs Hi.
  destruct (construct_all_links tramp ws m i this w Hs Hi) as [Hvt Hme].
  assert (Hrec : recover_me (construct_all tramp ws m) w = this).
  { unfold recover_me. rewrite Hvt. exact Hme. }
  split; [exact Hrec |]. split.
  - intros j this' w' Hj Hne.
    assert (Hd : this' <> this).
    { apply (separated_distinct ws j i (this', w') (this, w)); assumption. }
    split; [exact Hd |]. rewrite Hrec. congruence.
  - intros m'' event Hw Hp.
    unfold OnEvent_Wrap, recover_me.
    rewrite <- (load32_agree _ _ _ Hp), Hvt.
    rewrite <- (agree_on_sub _ _ _ _ (this + o_m_vtable + o_me) Hw)
      by (offsets; lia).
    rewrite Hme. reflexivity.
Qed.

(** Three wrappers; the event goes to the second one's object. *)
Lemma no_cross_talk_witness :
  recover_me (construct_all tramp_addr bench_instances bench_mem) obj_b
  = wrap_b
  /\ OnEvent_Wrap bench_virtual obj_b ev5
       (construct_all tramp_addr bench_instances bench_mem)
     = Some (102, construct_all tramp_addr bench_instances bench_mem).
Proof.
  destruct (no_cross_talk tramp_addr bench_virtual bench_instances bench_mem
              1 wrap_b obj_b eq_refl eq_refl) as [Hrec [_ Hcall]].
  split; [exact Hrec |].
  rewrite (Hcall _ ev5 (agree_on_refl _ _ _) (agree_on_refl _ _ _)).
  reflexivity.
Defined.

(* ================================================================= *)
(** ** Interleaved events *)

Lemma linked_after_construction (tramp : Z) (ws : list (Z * Z)) (m : mem) :
  separated ws = true -> linked ws (construct_all tramp ws m).
Proof.
  intros Hs [this w] Hin.
  destruct (In_nth_error ws (this, w) Hin) as [i Hi].
  exact (construct_all_links tramp ws m i this w Hs Hi).
Qed.

Lemma linked_kept (ws : list (Z * Z)) (m m1 : mem) :
  linked ws m ->
  (forall p, In p ws ->
     agree_on m m1 (fst p) GUIDialog_size
     /\ agree_on m m1 (snd p + o_vtable) 4) ->
  linked ws m1.
Proof.
  intros Hl Hk p Hp.
  destruct (Hl p Hp) as [Hvt Hme]. destruct (Hk p Hp) as [Hw Hptr].
  split.
  - rewrite <- (load32_agree _ _ _ Hptr). exact Hvt.
  - rewrite <- (agree_on_sub _ _ _ _ (fst p + o_m_vtable + o_me) Hw)
      by (offsets; lia).
    exact Hme.
Qed.

(** Events delivered one after the other to any of the instances, in any
    order, each reach the wrapper they are addressed to: entering through
    the Trampoline gives the results and the memory that running the
    addressed wrappers' own [OnEvent] gives. *)
Theorem interleaved_dispatch
    (virtual_OnEvent : Z -> Z -> Z -> mem -> option (Z * mem))
    (ws : list (Z * Z)) (calls : list (Z * Z * Z)) : forall m,
  keeps_instances virtual_OnEvent ws ->
  linked ws m ->
  (forall c, In c calls -> In (fst c) ws) ->
  run_trampolines virtual_OnEvent calls m
  = run_overrides virtual_OnEvent calls m.
Proof.
  induction calls as [| [[this w] event] r IH]; intros m Hk Hl Hin.
  - reflexivity.
  - cbn [run_trampolines run_overrides].
    destruct (Hl (this, w) (Hin _ (or_introl eq_refl))) as [Hvt Hme].
    cbn [fst snd] in Hvt, Hme.
    unfold OnEvent_Wrap, recover_me. rewrite Hvt, Hme.
    destruct (virtual_OnEvent this w event m) as [[x m1] |] eqn:Hcall;
      [| reflexivity].
    rewrite IH; [reflexivity | exact Hk | |].
    + apply (linked_kept ws m m1 Hl). intros p Hp.
      exact (Hk this w event m x m1 Hcall p Hp).
    + intros c Hc. apply Hin. now right.
Qed.

Lemma bench_counting_keeps : keeps_instances bench_counting bench_pair.
Proof.
  intros this dialog event m x m1 H p Hp.
  unfold bench_counting in H.
  destruct ((this =? wrap_a) || (this =? wrap_b)) eqn:E; [| discriminate].
  injection H as _ <-.
  apply orb_true_iff in E.
  destruct E as [E | E]; apply Z.eqb_eq in E; subst this;
    destruct Hp as [<- | [<- | []]]; cbn [fst snd];
    split; intros i Hi; symmetry; apply load8_store32_other;
    unfold wrap_a, wrap_b, obj_a, obj_b in *; offsets; lia.
Qed.

(** Two counting wrappers, five events interleaved: the first wrapper
    counts its three, the second its two. *)
Example bench_interleaved :
  option_map fst
    (run_trampolines bench_counting bench_calls
       (construct_all tramp_addr bench_pair bench_mem))
  = Some [1; 1; 2; 3; 2].
Proof.
  rewrite (interleaved_dispatch bench_counting bench_pair bench_calls _
             bench_counting_keeps
             (linked_after_construction tramp_addr bench_pair bench_mem
                eq_refl)).
  - vm_compute. reflexivity.
  - intros c Hc. unfold bench_calls in Hc. simpl in Hc.
    unfold bench_pair. simpl.
    repeat (destruct Hc as [<- | Hc]; [simpl; tauto |]). contradiction.
Qed.

(* ================================================================= *)
(** ** Event types of buttons *)

(** X1: two 16-bit event types give a button the same reported type exactly
    when they differ by a multiple of 4096: the four top bits of
    [eventType] are shifted out. *)
Theorem GetEventType_collision (a b : Z) :
  0 <= a < 2 ^ 16 -> 0 <= b < 2 ^ 16 ->
  (GetEventType a = GetEventType b <-> a mod 2 ^ 12 = b mod 2 ^ 12).
Proof.
  intros Ha Hb.
  rewrite (GetEventType_closed a Ha), (GetEventType_closed b Hb).
  split; intros H; euclid.
Qed.

Lemma GetEventType_collision_witness :
  GetEventType 3 = GetEventType (3 + 4096)
  /\ GetEventType 3 <> GetEventType 4.
Proof.
  pose proof (GetEventType_collision 3 (3 + 4096) ltac:(lia) ltac:(lia)) as H1.
  pose proof (GetEventType_collision 3 4 ltac:(lia) ltac:(lia)) as H2.
  split.
  - apply H1. reflexivity.
  - intros E. apply H2 in E. discriminate E.
Defined.

(** X2: shifting the reported type right by four and subtracting eight gives
    back the event type while it is below 4088; in general it gives it
    back up to a multiple of 4096. *)
Theorem GetEventType_round_trip (eventType : Z) :
  0 <= eventType < 2 ^ 16 ->
  eventType_of (GetEventType eventType) mod 2 ^ 12 = eventType mod 2 ^ 12
  /\ (eventType < 4088 -> eventType_of (GetEventType eventType) = eventType).
Proof.
  intros He. unfold eventType_of.
  rewrite (GetEventType_closed eventType He).
  rewrite Z.shiftr_div_pow2 by lia.
  split; [| intros Hlt]; euclid.
Qed.

Lemma GetEventType_round_trip_witness :
  eventType_of (GetEventType 4087) = 4087.
Proof.
  apply (GetEventType_round_trip 4087 ltac:(lia)). lia.
Defined.

(** X3: below 4088 nothing wraps: the reported type is [16 * eventType + 136],
    so it grows with the event type; 4088 is the first event type whose
    reported type falls back, to 8. *)
Theorem GetEventType_increasing (a b : Z) :
  0 <= a -> a < b -> b < 4088 ->
  GetEventType a = 16 * a + 136
  /\ GetEventType b = 16 * b + 136
  /\ GetEventType a < GetEventType b
  /\ GetEventType 4088 < GetEventType a.
Proof.
  intros Ha Hab Hb.
  rewrite (GetEventType_closed a) by lia.
  rewrite (GetEventType_closed b) by lia.
  rewrite (GetEventType_closed 4088) by lia.
  change (((4088 + 8) * 2 ^ 4 + 2 ^ 3) mod 2 ^ 16) with 8.
  rewrite !Z.mod_small by lia. lia.
Qed.

Lemma GetEventType_increasing_witness :
  GetEventType 0 = 136 /\ GetEventType 0 < GetEventType 4087.
Proof.
  destruct (GetEventType_increasing 0 4087 ltac:(lia) ltac:(lia) ltac:(lia))
    as [H0 [_ [Hlt _]]].
  split; [exact H0 | exact Hlt].
Defined.

(* ================================================================= *)
(** ** The message-box buttons *)

Lemma lor_lt_pow2 (a b n : Z) :
  0 < n -> 0 <= a < 2 ^ n -> 0 <= b < 2 ^ n -> 0 <= Z.lor a b < 2 ^ n.
Proof.
  intros Hn Ha Hb.
  assert (H0 : 0 <= Z.lor a b) by (apply Z.lor_nonneg; lia).
  split; [exact H0 |].
  destruct (Z.eq_dec (Z.lor a b) 0) as [-> | Hne]; [lia |].
  apply Z.log2_lt_pow2; [lia |].
  rewrite Z.log2_lor by lia.
  assert (Hl : forall x, 0 <= x < 2 ^ n -> Z.log2 x < n).
  { intros x Hx. destruct (Z.eq_dec x 0) as [-> | Hx0].
    - simpl. exact Hn.
    - apply Z.log2_lt_pow2; lia. }
  pose proof (Hl a Ha). pose proof (Hl b Hb). lia.
Qed.

Lemma BUTTONS_values : BUTTONS = [32; 64; 128; 256; 512; 1024].
Proof. reflexivity. Qed.

Lemma buttons_disjoint (x b : Z) :
  In x BUTTONS -> In b BUTTONS -> x <> b -> Z.land x b = 0.
Proof.
  rewrite BUTTONS_values. simpl.
  intros Hx Hb Hne.
  repeat (destruct Hx as [<- | Hx]; [| try contradiction]);
    repeat (destruct Hb as [<- | Hb]; [| try contradiction]);
    try reflexivity; contradiction.
Qed.

Lemma button_facts (b : Z) :
  In b BUTTONS -> 0 < b < 2 ^ 11 /\ Z.land b 31 = 0.
Proof.
  rewrite BUTTONS_values. simpl. intros Hb.
  repeat (destruct Hb as [<- | Hb]; [split; [lia | reflexivity] |]).
  contradiction.
Qed.

Lemma buttons_or_inv (l : list Z) :
  Forall (fun x => In x BUTTONS) l ->
  0 <= buttons_or l < 2 ^ 11
  /\ Z.land (buttons_or l) 31 = 0
  /\ (forall b, In b BUTTONS ->
        (In b l -> Z.land (buttons_or l) b = b)
        /\ (~ In b l -> Z.land (buttons_or l) b = 0)).
Proof.
  induction 1 as [| x l Hx Hl IH].
  - simpl. split; [lia |]. split; [reflexivity |].
    intros b _. split; [contradiction | reflexivity].
  - destruct IH as [Hr [Hlow Hdec]].
    destruct (button_facts x Hx) as [Hxr Hxlow].
    pose proof (lor_lt_pow2 x (buttons_or l) 11 ltac:(lia) ltac:(lia) Hr)
      as Hlor.
    assert (Heq : buttons_or (x :: l) = Z.lor x (buttons_or l)).
    { change (buttons_or (x :: l)) with (int_or x (buttons_or l)).
      unfold int_or. apply int32_t_small. lia. }
    rewrite Heq. split; [exact Hlor |]. split.
    + rewrite Z.land_lor_distr_l, Hxlow, Hlow. reflexivity.
    + intros b Hb. rewrite Z.land_lor_distr_l.
      destruct (Hdec b Hb) as [Hin Hout].
      destruct (Z.eq_dec x b) as [-> | Hne].
      * rewrite Z.land_diag.
        split; [intros _ | intros Hn; exfalso; apply Hn; now left].
        destruct (in_dec Z.eq_dec b l) as [Hi | Hi].
        -- rewrite (Hin Hi). apply Z.lor_diag.
        -- rewrite (Hout Hi). apply Z.lor_0_r.
      * rewrite (buttons_disjoint x b Hx Hb Hne), Z.lor_0_l.
        split.
        -- intros [E | Hi]; [contradiction | exact (Hin Hi)].
        -- intros Hn. apply Hout. intros Hi. apply Hn. now right.
Qed.

(** X4: any buttons of the header combined with [|] can be read back one by
    one: masking the bitfield with a button gives that button when it
    was among those combined and 0 when it was not, whatever the order
    and the repetitions; the bitfield stays below bit 11 and leaves bits 0
    to 4 clear. *)
Theorem buttons_read_back (l : list Z) (b : Z) :
  Forall (fun x => In x BUTTONS) l ->
  In b BUTTONS ->
  (Z.land (buttons_or l) b = b <-> In b l)
  /\ (Z.land (buttons_or l) b = 0 <-> ~ In b l)
  /\ Z.land (buttons_or l) 31 = 0
  /\ 0 <= buttons_or l < 2 ^ 11.
Proof.
  intros Hl Hb.
  destruct (buttons_or_inv l Hl) as [Hr [Hlow Hdec]].
  destruct (Hdec b Hb) as [Hin Hout].
  destruct (button_facts b Hb) as [Hbr _].
  split; [| split; [| split; assumption]].
  - split; [| exact Hin].
    intros E. destruct (in_dec Z.eq_dec b l) as [Hi | Hi]; [exact Hi |].
    rewrite (Hout Hi) in E. lia.
  - split; [| exact Hout].
    intros E Hi. rewrite (Hin Hi) in E. lia.
Qed.

Lemma buttons_read_back_witness :
  Z.land (buttons_or [BUTTON_YES; BUTTON_NO; BUTTON_YES]) BUTTON_NO
  = BUTTON_NO
  /\ Z.land (buttons_or [BUTTON_YES; BUTTON_NO; BUTTON_YES]) BUTTON_CANCEL
     = 0.
Proof.
  assert (Hl : Forall (fun x => In x BUTTONS)
                 [BUTTON_YES; BUTTON_NO; BUTTON_YES]).
  { repeat constructor; simpl; tauto. }
  destruct (buttons_read_back _ BUTTON_NO Hl ltac:(simpl; tauto))
    as [[_ Hset] _].
  destruct (buttons_read_back _ BUTTON_CANCEL Hl ltac:(simpl; tauto))
    as [_ [[_ Hclear] _]].
  split.
  - apply Hset. simpl. tauto.
  - apply Hclear. vm_compute. intuition discriminate.
Defined.

(* ================================================================= *)
(** ** Looking members up by name *)

Lemma assoc_app {A : Type} (k : string) (l1 l2 : list (string * A)) :
  assoc k (l1 ++ l2)
  = match assoc k l1 with
    | Some v => Some v
    | None => assoc k l2
    end.
Proof.
  induction l1 as [| [k' v] l1 IH]; simpl; [reflexivity |].
  destruct (String.eqb k k'); [reflexivity | exact IH].
Qed.

Lemma assoc_not_in {A : Type} (k : string) (l : list (string * A)) :
  ~ In k (map fst l) -> assoc k l = None.
Proof.
  induction l as [| [k' v] l IH]; simpl; intros Hn; [reflexivity |].
  destruct (String.eqb_spec k k') as [-> | _].
  - exfalso. apply Hn. now left.
  - apply IH. intros Hi. apply Hn. now right.
Qed.

Lemma assoc_some_in {A : Type} (k : string) (l : list (string * A)) (v : A) :
  assoc k l = Some v -> In k (map fst l).
Proof.
  intros H. destruct (in_dec string_dec k (map fst l)) as [Hi | Hn];
    [exact Hi |].
  rewrite (assoc_not_in k l Hn) in H. discriminate.
Qed.

Lemma layout_names (dm : DataModel) (fs : list field) :
  map fst (layout dm fs) = map fst fs.
Proof.
  unfold layout.
  assert (H : forall (a : list string) (b : list Z),
             List.length a = List.length b -> map fst (combine a b) = a).
  { induction a as [| x a IH]; intros [| y b] Hlen; simpl in *;
      try discriminate; [reflexivity |].
    f_equal. apply IH. lia. }
  apply H. now rewrite offsets_from_length, !length_map.
Qed.

Lemma shift_names (d : Z) (l : list (string * Z)) :
  map fst (shift d l) = map fst l.
Proof. unfold shift. rewrite map_map. reflexivity. Qed.

Lemma distinct_names_NoDup (l : list string) :
  distinct_names l = true -> NoDup l.
Proof.
  induction l as [| n r IH]; simpl; intros H; constructor.
  - apply andb_true_iff in H. destruct H as [H _].
    intros Hi. apply negb_true_iff in H.
    assert (Ht : existsb (String.eqb n) r = true).
    { apply existsb_exists. exists n. split; [exact Hi |].
      apply String.eqb_refl. }
    congruence.
  - apply IH. apply andb_true_iff in H. tauto.
Qed.

Lemma NoDup_app_notin {A : Type} (l1 l2 : list A) (x : A) :
  NoDup (l1 ++ l2) -> In x l2 -> ~ In x l1.
Proof.
  induction l1 as [| a l1 IH]; simpl; intros Hnd Hx; [tauto |].
  inversion Hnd as [| ? ? Hna Hnd']; subst.
  intros [-> | Hi].
  - apply Hna. apply in_or_app. now right.
  - exact (IH Hnd' Hx Hi).
Qed.

(** X5: for every table declared with the two macros whose member names are
    pairwise different, whatever comes before and after an entry: the
    entry's adjustor offset, unused word and function pointer are found by
    name at twelve times the number of slots declared before it, plus 0, 4
    and 8; so a call through the entry reads exactly that slot. *)
Theorem macro_entry_by_name
    (pre post : list vt_item) (name : string)
    (call : Z -> list Z -> mem -> option (Z * mem))
    (self vtable : Z) (args : list Z) (m : mem) :
  fake_counts_ok (pre ++ ENTRY name :: post) = true ->
  distinct_names (map fst (table_fields (pre ++ ENTRY name :: post))) = true ->
  offsetof sh4 (table_fields (pre ++ ENTRY name :: post))
    (String.append name "_Offset") = Some (12 * slots pre)
  /\ offsetof sh4 (table_fields (pre ++ ENTRY name :: post))
       (String.append name "_Unused") = Some (12 * slots pre + 4)
  /\ offsetof sh4 (table_fields (pre ++ ENTRY name :: post)) name
     = Some (12 * slots pre + 8)
  /\ VTABLE_CALL_EXT call (table_fields (pre ++ ENTRY name :: post))
       self vtable name args m
     = call (load32 m (vtable + (12 * slots pre + 8)))
            (ptr_add self (int32_t (load32 m (vtable + 12 * slots pre)))
             :: args)
            m.
Proof.
  intros Hok Hd. apply distinct_names_NoDup in Hd.
  assert (Hnames : map fst (table_fields (pre ++ ENTRY name :: post))
                   = map fst (table_fields pre)
                     ++ [String.append name "_Offset";
                         String.append name "_Unused"; name]
                     ++ map fst (table_fields post)).
  { unfold table_fields. rewrite flat_map_app, map_app. reflexivity. }
  rewrite Hnames in Hd.
  assert (Hpre : forall x,
             In x [String.append name "_Offset";
                   String.append name "_Unused"; name] ->
             assoc x (layout sh4 (table_fields pre)) = None).
  { intros x Hx. apply assoc_not_in. rewrite layout_names.
    apply (NoDup_app_notin _ _ x Hd). apply in_or_app. now left. }
  apply NoDup_app_remove_l in Hd.
  apply NoDup_app_remove_r in Hd.
  inversion Hd as [| ? ? Hn1 Hd1]; subst.
  inversion Hd1 as [| ? ? Hn2 _]; subst.
  assert (H12 : String.eqb (String.append name "_Unused")
                           (String.append name "_Offset") = false).
  { apply String.eqb_neq. intros E. apply Hn1. left. now symmetry. }
  assert (H13 : String.eqb name (String.append name "_Offset") = false).
  { apply String.eqb_neq. intros E. apply Hn1. right. left. now symmetry. }
  assert (H23 : String.eqb name (String.append name "_Unused") = false).
  { apply String.eqb_neq. intros E. apply Hn2. left. now symmetry. }
  assert (Hoff : forall x,
             In x [String.append name "_Offset";
                   String.append name "_Unused"; name] ->
             offsetof sh4 (table_fields (pre ++ ENTRY name :: post)) x
             = assoc x
                 [(String.append name "_Offset", 12 * slots pre + 0);
                  (String.append name "_Unused", 12 * slots pre + 4);
                  (name, 12 * slots pre + 8)]).
  { intros x Hx. unfold offsetof.
    rewrite (table_layout_split pre post (ENTRY name) Hok).
    rewrite assoc_app, (Hpre x Hx), assoc_app.
    change (shift (12 * slots pre) (layout sh4 (item_fields (ENTRY name))))
      with [(String.append name "_Offset", 12 * slots pre + 0);
            (String.append name "_Unused", 12 * slots pre + 4);
            (name, 12 * slots pre + 8)].
    destruct (assoc x _) eqn:E; [reflexivity |].
    exfalso. simpl in Hx, E.
    destruct Hx as [<- | [<- | [<- | []]]].
    - rewrite String.eqb_refl in E. discriminate.
    - rewrite H12, String.eqb_refl in E. discriminate.
    - rewrite H13, H23, String.eqb_refl in E. discriminate. }
  assert (H1 : offsetof sh4 (table_fields (pre ++ ENTRY name :: post))
                 (String.append name "_Offset") = Some (12 * slots pre)).
  { rewrite Hoff by (simpl; tauto). simpl. rewrite String.eqb_refl.
    f_equal. lia. }
  assert (H3 : offsetof sh4 (table_fields (pre ++ ENTRY name :: post)) name
               = Some (12 * slots pre + 8)).
  { rewrite Hoff by (simpl; tauto). simpl.
    rewrite H13, H23, String.eqb_refl. reflexivity. }
  split; [exact H1 |]. split; [| split; [exact H3 |]].
  - rewrite Hoff by (simpl; tauto). simpl.
    rewrite H12, String.eqb_refl. reflexivity.
  - unfold VTABLE_CALL_EXT. rewrite H1, H3. reflexivity.
Qed.

(** A table of a user's own: an entry [Draw] after the identity slot and
    seven fake slots. *)
Lemma macro_entry_by_name_witness :
  offsetof sh4
    (table_fields ([IDENT; FAKE 7 "0"] ++ ENTRY "Draw" :: [FAKE 2 "1"]))
    "Draw"
  = Some (12 * 8 + 8).
Proof.
  destruct (macro_entry_by_name [IDENT; FAKE 7 "0"] [FAKE 2 "1"] "Draw"
              (fun _ _ _ => None) 0 0 [] (fun _ => 0) eq_refl eq_refl)
    as [_ [_ [H _]]].
  exact H.
Defined.

(* ================================================================= *)
(** ** Which names the call macro accepts *)

Lemma string_length_append (a s : string) :
  String.length (String.append a s) = (String.length a + String.length s)%nat.
Proof.
  induction a as [| c a IH]; simpl; [reflexivity | now rewrite IH].
Qed.

Lemma strip_suffix_eq (s l : string) :
  strip_suffix s l
  = if String.eqb l s then Some EmptyString
    else match l with
         | EmptyString => None
         | String c l' => option_map (String c) (strip_suffix s l')
         end.
Proof. destruct l; reflexivity. Qed.

Lemma strip_suffix_append (s a : string) :
  strip_suffix s (String.append a s) = Some a.
Proof.
  induction a as [| c a IH].
  - simpl. rewrite strip_suffix_eq, String.eqb_refl. reflexivity.
  - rewrite strip_suffix_eq.
    destruct (String.eqb_spec (String.append (String c a) s) s) as [E | _].
    + apply (f_equal String.length) in E.
      rewrite string_length_append in E. simpl in E. lia.
    + simpl. rewrite IH. reflexivity.
Qed.

(** A member called [name ++ "_Offset"], traced back to [name]. *)
Ltac trace_name H Hnone :=
  let S := fresh "S" in
  match type of H with
  | ?lit = String.append ?name "_Offset" =>
      assert (S : strip_suffix "_Offset" lit = Some name)
        by (rewrite H; apply strip_suffix_append);
      vm_compute in S;
      first [ discriminate S
            | injection S as <-; vm_compute in Hnone; discriminate Hnone ]
  end.

Lemma declared_non_entry (items : list vt_item) (name : string) :
  In items declared_tables ->
  entry_index items name = None ->
  offsetof sh4 (table_fields items) (String.append name "_Offset") = None.
Proof.
  intros Hin Hnone.
  destruct (offsetof sh4 (table_fields items) (String.append name "_Offset"))
    as [o |] eqn:E; [| reflexivity].
  exfalso. apply assoc_some_in in E. rewrite layout_names in E.
  unfold declared_tables in Hin. simpl In in Hin.
  destruct Hin as [<- | [<- | [<- | []]]]; simpl in E;
    repeat (destruct E as [E | E]; [trace_name E Hnone |]);
    contradiction.
Qed.

(** X6: on the tables the header declares, a call through a name is accepted
    exactly when the name is one of the table's entries: for any other
    name (a fake entry, the identity slot, an entry's own [_Offset] or
    [_Unused] member, a name the table does not have) nothing is called. *)
Theorem VTABLE_CALL_EXT_accepts_entries_only
    (items : list vt_item) (name : string) :
  In items declared_tables ->
  (entry_index items name = None
   <-> forall call self vtable args m,
         VTABLE_CALL_EXT call (table_fields items) self vtable name args m
         = None).
Proof.
  intros Hin. split.
  - intros Hnone call self vtable args m. unfold VTABLE_CALL_EXT.
    rewrite (declared_non_entry items name Hin Hnone). reflexivity.
  - intros Hall.
    destruct (entry_index items name) as [k |] eqn:E; [| reflexivity].
    exfalso.
    specialize (Hall (fun _ _ m0 => Some (0, m0)) 0 0 [] (fun _ => 0)).
    destruct (declared_entry_offsets items name k Hin E) as [H1 H2].
    unfold VTABLE_CALL_EXT in Hall. rewrite H1, H2 in Hall. discriminate.
Qed.

Lemma VTABLE_CALL_EXT_accepts_entries_only_witness :
  VTABLE_CALL_EXT bench_firmware
    (table_fields GUIDialog_Wrapped_VTable_items)
    obj_a rom_table "fakeentry0" [] bench_mem
  = None.
Proof.
  apply (VTABLE_CALL_EXT_accepts_entries_only
           GUIDialog_Wrapped_VTable_items "fakeentry0" (or_introl eq_refl)).
  reflexivity.
Defined.

(* ================================================================= *)
(** ** What a call reads *)

Lemma declared_entry_bounds (items : list vt_item) (name : string) (k : Z) :
  In items declared_tables ->
  entry_index items name = Some k ->
  0 <= k /\ 12 * k + 12 <= sizeof sh4 (TStruct (table_fields items)).
Proof.
  unfold declared_tables. simpl In.
  intros [<- | [<- | [<- | []]]]; cbn [entry_index
    GUIDialog_Wrapped_VTable_items GUIDropDownMenu_Wrapped_VTable_items
    GUITextBox_Wrapped_VTable_items item_slots option_map].
  - split_name name "OnEvent"%string;
      [intros [= <-]; vm_compute; intuition discriminate |].
    split_name name "AddElement"%string;
      [intros [= <-]; vm_compute; intuition discriminate |].
    split_name name "Refresh"%string;
      [intros [= <-]; vm_compute; intuition discriminate |].
    split_name name "ShowDialog"%string;
      [intros [= <-]; vm_compute; intuition discriminate |].
    discriminate.
  - split_name name "AddMenuItem"%string;
      [intros [= <-]; vm_compute; intuition discriminate |].
    split_name name "SetScrollBarVisibility"%string;
      [intros [= <-]; vm_compute; intuition discriminate |].
    discriminate.
  - split_name name "SetText"%string;
      [intros [= <-]; vm_compute; intuition discriminate |].
    discriminate.
Qed.

(** X7: a call through a declared entry looks at two words of memory, the
    adjustor offset and the function pointer of its slot, both inside
    the declared table: in a memory that holds the same two words, the
    same function is run on the same arguments. *)
Theorem VTABLE_CALL_EXT_reads_its_slot
    (call : Z -> list Z -> mem -> option (Z * mem))
    (items : list vt_item) (name : string) (k : Z)
    (self vtable : Z) (args : list Z) (m m' : mem) :
  In items declared_tables ->
  entry_index items name = Some k ->
  agree_on m m' (vtable + 12 * k) 4 ->
  agree_on m m' (vtable + (12 * k + 8)) 4 ->
  0 <= 12 * k
  /\ 12 * k + 12 <= sizeof sh4 (TStruct (table_fields items))
  /\ VTABLE_CALL_EXT (fun f a _ => call f a m) (table_fields items)
       self vtable name args m'
     = VTABLE_CALL_EXT call (table_fields items) self vtable name args m.
Proof.
  intros Hin Hk Hoff Hfn.
  destruct (declared_entry_bounds items name k Hin Hk) as [Hk0 Hk1].
  destruct (declared_entry_offsets items name k Hin Hk) as [H1 H2].
  split; [lia |]. split; [exact Hk1 |].
  unfold VTABLE_CALL_EXT. rewrite H1, H2.
  rewrite <- (load32_agree _ _ _ Hoff), <- (load32_agree _ _ _ Hfn).
  reflexivity.
Qed.

(** The unused word of the [AddElement] slot overwritten: the call is the
    same. *)
Lemma VTABLE_CALL_EXT_reads_its_slot_witness :
  VTABLE_CALL_EXT (fun f a _ => bench_firmware f a bench_mem)
    (table_fields GUIDialog_Wrapped_VTable_items)
    obj_a rom_table "AddElement" [0x0C300000; 0]
    (store32 bench_mem (rom_table + 52) 0xDEADBEEF)
  = Some (obj_a - 4, bench_mem).
Proof.
  destruct (VTABLE_CALL_EXT_reads_its_slot bench_firmware
              GUIDialog_Wrapped_VTable_items "AddElement" 4
              obj_a rom_table [0x0C300000; 0] bench_mem
              (store32 bench_mem (rom_table + 52) 0xDEADBEEF)
              (or_introl eq_refl) eq_refl) as [_ [_ H]].
  - intros i Hi. symmetry. apply load8_store32_other. lia.
  - intros i Hi. symmetry. apply load8_store32_other. lia.
  - rewrite H. vm_compute. reflexivity.
Defined.

(* ================================================================= *)
(** ** The adjusted self-pointer *)

Lemma ptr_add_raw (self v : Z) :
  ptr_add self (int32_t v) = uint32_t (self + v).
Proof.
  unfold ptr_add, uint32_t, int32_t. cbv zeta.
  destruct (Z.ltb_spec (v mod 2 ^ 32) (2 ^ 31)); euclid.
Qed.

(** X8: the pointer a call through a declared entry hands to the callee is a
    32-bit address, the same whether the stored offset word is taken as
    signed or as unsigned; it is [self] itself when the stored offset is
    0, and taking the offset off again gives [self] back. *)
Theorem adjusted_self_pointer
    (call : Z -> list Z -> mem -> option (Z * mem))
    (items : list vt_item) (name : string) (k : Z)
    (self vtable : Z) (args : list Z) (m : mem) :
  In items declared_tables ->
  entry_index items name = Some k ->
  0 <= self < 2 ^ 32 ->
  VTABLE_CALL_EXT call (table_fields items) self vtable name args m
    = call (load32 m (vtable + (12 * k + 8)))
           (uint32_t (self + load32 m (vtable + 12 * k)) :: args) m
  /\ 0 <= uint32_t (self + load32 m (vtable + 12 * k)) < 2 ^ 32
  /\ (load32 m (vtable + 12 * k) = 0 ->
      uint32_t (self + load32 m (vtable + 12 * k)) = self)
  /\ ptr_add (uint32_t (self + load32 m (vtable + 12 * k)))
             (- int32_t (load32 m (vtable + 12 * k)))
     = self.
Proof.
  intros Hin Hk Hself.
  destruct (declared_entry_offsets items name k Hin Hk) as [H1 H2].
  split; [| split; [| split]].
  - unfold VTABLE_CALL_EXT. rewrite H1, H2, ptr_add_raw. reflexivity.
  - unfold uint32_t. apply Z.mod_pos_bound. lia.
  - intros ->. unfold uint32_t. rewrite Z.add_0_r. apply Z.mod_small.
    exact Hself.
  - rewrite <- ptr_add_raw. unfold ptr_add, uint32_t.
    pose proof (int32_t_range (load32 m (vtable + 12 * k))). euclid.
Qed.

Lemma adjusted_self_pointer_witness :
  VTABLE_CALL_EXT bench_firmware
    (table_fields GUIDialog_Wrapped_VTable_items)
    obj_a rom_table "AddElement" [0x0C300000; 0] bench_mem
  = Some (obj_a - 4, bench_mem)
  /\ ptr_add (obj_a - 4) 4 = obj_a.
Proof.
  destruct (adjusted_self_pointer bench_firmware
              GUIDialog_Wrapped_VTable_items "AddElement" 4
              obj_a rom_table [0x0C300000; 0] bench_mem
              (or_introl eq_refl) eq_refl ltac:(unfold obj_a; lia))
    as [Hcall [_ [_ Hback]]].
  split.
  - rewrite Hcall. vm_compute. reflexivity.
  - vm_compute. reflexivity.
Defined.

(* ================================================================= *)
(** ** No padding in the foreign structures *)

(** X9: on the target none of the structures declared for foreign memory has
    padding: each member starts where the one before it ends, so the
    sizes written for the unknown regions place the known members: the
    dialog's bounds at 0x10 to 0x16, the table pointer at 0x4C in the
    dialog, the drop-down menu and the text box, the text box's text at
    0x54.  With 8-byte pointers the dialog would not be packed. *)
Theorem foreign_structs_packed :
  Forall (packed sh4) declared_structs
  /\ ~ packed lp64 GUIDialog_Wrapped
  /\ offsetof sh4 GUIDialog_Wrapped "leftX" = Some 0x10
  /\ offsetof sh4 GUIDialog_Wrapped "topY" = Some 0x12
  /\ offsetof sh4 GUIDialog_Wrapped "rightX" = Some 0x14
  /\ offsetof sh4 GUIDialog_Wrapped "bottomY" = Some 0x16
  /\ offsetof sh4 GUIDialog_Wrapped "vtable" = Some 0x4C
  /\ offsetof sh4 GUIDropDownMenu_Wrapped "vtable" = Some 0x4C
  /\ offsetof sh4 GUITextBox_Wrapped "vtable" = Some 0x4C
  /\ offsetof sh4 GUITextBox_Wrapped "text" = Some 0x54.
Proof.
  split; [| split; [| repeat split]].
  - unfold declared_structs. repeat constructor.
  - intros [H _]. vm_compute in H. discriminate.
Qed.

(* ================================================================= *)
(** ** Calls follow the table pointer *)

(** X10: [VTABLE_CALL] on any of the header's foreign objects goes through
    whatever table the object's [vtable] member points to at the time of
    the call: once a table address has been stored there, every call is
    the call through that table; and with a member name the object does
    not have, nothing is called. *)
Theorem VTABLE_CALL_follows_table_pointer
    (call : Z -> list Z -> mem -> option (Z * mem))
    (S : list field) (items : list vt_item)
    (self table : Z) (name : string) (args : list Z) (m : mem) :
  In (S, items) declared_objects ->
  0 <= table < 2 ^ 32 ->
  VTABLE_CALL call S (table_fields items) self "vtable" name args
    (store32 m (self + 0x4C) table)
  = VTABLE_CALL_EXT call (table_fields items) self table name args
      (store32 m (self + 0x4C) table)
  /\ (forall vt,
         offsetof sh4 S vt = None ->
         VTABLE_CALL call S (table_fields items) self vt name args m = None).
Proof.
  intros Hin Ht. split.
  - assert (Hvt : offsetof sh4 S "vtable" = Some 0x4C).
    { unfold declared_objects in Hin. simpl In in Hin.
      destruct Hin as [[= <- _] | [[= <- _] | [[= <- _] | []]]];
        reflexivity. }
    unfold VTABLE_CALL. rewrite Hvt, load32_store32_same.
    rewrite Z.mod_small by exact Ht. reflexivity.
  - intros vt Hvt. unfold VTABLE_CALL. rewrite Hvt. reflexivity.
Qed.

(** A second table in RAM whose [AddElement] slot has offset 0: after the
    object is pointed to it, the call arrives with [self] unchanged. *)
Lemma VTABLE_CALL_follows_table_pointer_witness :
  VTABLE_CALL bench_firmware GUIDialog_Wrapped
    (table_fields GUIDialog_Wrapped_VTable_items)
    obj_a "vtable" "AddElement" [0x0C300000; 0]
    (store32 (store32 bench_mem (0x0C400000 + 56) rom_AddElement)
             (obj_a + 0x4C) 0x0C400000)
  = VTABLE_CALL_EXT bench_firmware
      (table_fields GUIDialog_Wrapped_VTable_items)
      obj_a 0x0C400000 "AddElement" [0x0C300000; 0]
      (store32 (store32 bench_mem (0x0C400000 + 56) rom_AddElement)
               (obj_a + 0x4C) 0x0C400000).
Proof.
  destruct (VTABLE_CALL_follows_table_pointer bench_firmware
              GUIDialog_Wrapped GUIDialog_Wrapped_VTable_items
              obj_a 0x0C400000 "AddElement" [0x0C300000; 0]
              (store32 bench_mem (0x0C400000 + 56) rom_AddElement)
              (or_introl eq_refl) ltac:(lia)) as [H _].
  exact H.
Defined.
